(** * SimpleTodoList: the data core of [TodoList.py]

    The classes [Task] and [TodoList] of the source, embedded with an explicit
    object store.  A Python list holds references, and the methods of
    [TodoList] mutate [Task] objects in place through those references, so
    the model keeps the objects in a store and lets [self.tasks] be a list
    of references into it.  Indices are Python integers, hence [Z]; indexing
    a list follows Python: a negative index counts from the end, and an
    index out of range raises [IndexError].

    The handlers of [TodoApp] are embedded over the state of the widgets
    they read and write: the text of the three entry fields, the lines and
    the selection of the list box, and the warnings shown. *)

From Stdlib Require Import ZArith String DecimalString Lia.
From stdpp Require Import base option list.

Open Scope string_scope.
Open Scope Z_scope.
Open Scope nat_scope.

(** ** Data model *)

(** [class Task]: the four attributes set by [__init__]. *)
Record Task : Type := mkTask {
  title : string;
  due_date : string;
  priority : string;
  is_completed : bool
}.

(** A reference to a [Task] object: its address in the object store. *)
Abbreviation ref := nat (only parsing).

(** A [TodoList] instance with the objects it refers to: [tasks] is the
    attribute [self.tasks], [heap] the store of the [Task] objects that
    were created.  Objects are never collected in the model. *)
Record TodoList : Type := mkTodoList {
  heap : list Task;
  tasks : list ref
}.

(** The exceptions the data core can raise. *)
Inductive exn : Type := IndexError.

(** An optional text argument of [edit_task]: [None] (the default) or a
    [str]. *)
Definition arg : Type := option string.

(** ** Effects: state and exceptions

    A method either returns a value or raises; in both cases the mutations
    done so far stay. *)
Inductive outcome (A : Type) : Type :=
| Ok (a : A) (s : TodoList)
| Raise (e : exn) (s : TodoList).
Arguments Ok {A} a s.
Arguments Raise {A} e s.

Definition M (A : Type) : Type := TodoList -> outcome A.

Definition ret {A} (a : A) : M A := fun s => Ok a s.

Definition bind {A B} (c : M A) (k : A -> M B) : M B :=
  fun s => match c s with
           | Ok a s' => k a s'
           | Raise e s' => Raise e s'
           end.

Definition raise {A} (e : exn) : M A := fun s => Raise e s.

Declare Scope py_scope.
Delimit Scope py_scope with py.
Notation "x <- c ;; k" := (bind c (fun x => k))
  (at level 100, c at next level, right associativity) : py_scope.
Notation "c ;;; k" := (bind c (fun _ => k))
  (at level 100, right associativity) : py_scope.
Open Scope py_scope.

(** ** The fragment of Python the methods use *)

(** Index normalisation of [list.__getitem__] and [list.pop] on a list of
    length [n]: a negative index has [n] added, and the result must lie in
    [0, n). *)
Definition py_index (n : nat) (i : Z) : option nat :=
  let j := if (i <? 0)%Z then (i + Z.of_nat n)%Z else i in
  if ((0 <=? j)%Z && (j <? Z.of_nat n)%Z)%bool then Some (Z.to_nat j) else None.

(** [len(self.tasks)] *)
Definition list_len : M Z :=
  fun s => Ok (Z.of_nat (length (tasks s))) s.

(** [self.tasks[i]] *)
Definition list_getitem (i : Z) : M ref :=
  fun s => match py_index (length (tasks s)) i with
           | Some k => match tasks s !! k with
                       | Some r => ret r s
                       | None => raise IndexError s
                       end
           | None => raise IndexError s
           end.

(** [self.tasks.append(r)] *)
Definition list_append (r : ref) : M unit :=
  fun s => Ok tt {| heap := heap s; tasks := tasks s ++ [r] |}.

(** [self.tasks.pop(i)] *)
Definition list_pop (i : Z) : M ref :=
  fun s => match py_index (length (tasks s)) i with
           | Some k => match tasks s !! k with
                       | Some r => ret r {| heap := heap s; tasks := delete k (tasks s) |}
                       | None => raise IndexError s
                       end
           | None => raise IndexError s
           end.

(** Attribute assignment [r.attr = v] on the object behind [r].  A
    reference held by the list always denotes a stored object ([wf] below);
    on any other address the store is left as it is. *)
Definition setattr (upd : Task -> Task) (r : ref) : M unit :=
  fun s => Ok tt {| heap := alter upd r (heap s); tasks := tasks s |}.

Definition set_title (v : string) (t : Task) : Task :=
  {| title := v; due_date := due_date t; priority := priority t;
     is_completed := is_completed t |}.
Definition set_due_date (v : string) (t : Task) : Task :=
  {| title := title t; due_date := v; priority := priority t;
     is_completed := is_completed t |}.
Definition set_priority (v : string) (t : Task) : Task :=
  {| title := title t; due_date := due_date t; priority := v;
     is_completed := is_completed t |}.
Definition set_is_completed (v : bool) (t : Task) : Task :=
  {| title := title t; due_date := due_date t; priority := priority t;
     is_completed := v |}.

(** Truth value of an optional text: [None] and the empty string are
    falsy, every other string is truthy. *)
Definition truthy (v : arg) : bool :=
  match v with
  | None => false
  | Some s => negb (String.eqb s "")
  end.

(** [if v: r.attr = v] *)
Definition assign_if_truthy (v : arg) (upd : string -> Task -> Task) (r : ref) : M unit :=
  match v with
  | Some s => if truthy v then setattr (upd s) r else ret tt
  | None => ret tt
  end.

(** ** [class Task] *)

(** [Task.__init__]: a new object, not completed. *)
Definition Task_init (title due_date priority : string) : M ref :=
  fun s => Ok (length (heap s))
              {| heap := heap s ++ [mkTask title due_date priority false];
                 tasks := tasks s |}.

(** [Task.__str__], on the attribute values of [self]. *)
Definition Task_str (self : Task) : string :=
  let status := if is_completed self then "Completed" else "Not Completed" in
  title self ++ " - " ++ due_date self ++ " - " ++ priority self ++ " - " ++ status.

(** ** [class TodoList] *)

(** [TodoList.__init__] *)
Definition TodoList_init : TodoList := {| heap := []; tasks := [] |}.

Definition add_task (title due_date priority : string) : M unit :=
  new_task <- Task_init title due_date priority ;;
  list_append new_task.

Definition remove_task (task_index : Z) : M unit :=
  n <- list_len ;;
  if ((0 <=? task_index)%Z && (task_index <? n)%Z)%bool
  then (list_pop task_index ;;; ret tt)
  else ret tt.

Definition edit_task (task_index : Z) (title due_date priority : arg) : M unit :=
  task <- list_getitem task_index ;;
  assign_if_truthy title set_title task ;;;
  assign_if_truthy due_date set_due_date task ;;;
  assign_if_truthy priority set_priority task.

Definition mark_completed (task_index : Z) : M unit :=
  task <- list_getitem task_index ;;
  setattr (set_is_completed true) task.

Definition mark_incomplete (task_index : Z) : M unit :=
  task <- list_getitem task_index ;;
  setattr (set_is_completed false) task.

(** ** Observations used in the statements *)

(** [len(self.tasks)] as a number. *)
Definition len (s : TodoList) : Z := Z.of_nat (length (tasks s)).

(** The attribute values of the task stored at position [k], if any. *)
Definition task_at (s : TodoList) (k : nat) : option Task :=
  tasks s !! k ≫= fun r => heap s !! r.

(** The state a method leaves behind, whether it returned or raised. *)
Definition final {A} (o : outcome A) : TodoList :=
  match o with
  | Ok _ s => s
  | Raise _ s => s
  end.

(** Whether a call ended in an indexing fault. *)
Definition faults {A} (o : outcome A) : bool :=
  match o with
  | Ok _ _ => false
  | Raise IndexError _ => true
  end.

(** The list owns its tasks: no object is referenced from two positions,
    and every reference denotes an object that was created. *)
Definition wf (s : TodoList) : Prop :=
  NoDup (tasks s) ∧ Forall (fun r => r < length (heap s)) (tasks s).

(** The calls a client can make on a [TodoList], and their execution; a
    fault is left to the caller, the list keeps the state reached. *)
Inductive call : Type :=
| Add (title due_date priority : string)
| Remove (task_index : Z)
| Edit (task_index : Z) (title due_date priority : arg)
| MarkCompleted (task_index : Z)
| MarkIncomplete (task_index : Z).

Definition exec (c : call) : M unit :=
  match c with
  | Add t d p => add_task t d p
  | Remove i => remove_task i
  | Edit i t d p => edit_task i t d p
  | MarkCompleted i => mark_completed i
  | MarkIncomplete i => mark_incomplete i
  end.

Definition run (cs : list call) (s : TodoList) : TodoList :=
  foldl (fun s c => final (exec c s)) s cs.

(** What [edit_task] does to one attribute: a truthy argument replaces the
    old value, a falsy one keeps it. *)
Definition updated (v : arg) (old : string) : string :=
  match v with
  | Some x => if truthy v then x else old
  | None => old
  end.

Definition edited (t d p : arg) (x : Task) : Task :=
  {| title := updated t (title x); due_date := updated d (due_date x);
     priority := updated p (priority x); is_completed := is_completed x |}.

(** States used in the examples. *)
Definition one_task : TodoList :=
  {| heap := [mkTask "A" "2024-01-01" "Low" false]; tasks := [0] |}.

Definition two_tasks : TodoList :=
  {| heap := [mkTask "A" "2024-01-01" "Low" false;
              mkTask "B" "2024-01-02" "High" false];
     tasks := [0; 1] |}.

(** ** [TodoList.show_tasks]: console output *)

(** [str(i)] of a non-negative [int]: its decimal digits. *)
Definition str_of_nat (i : nat) : string :=
  NilZero.string_of_uint (Nat.to_uint i).

(** The loop [for i, task in enumerate(self.tasks): print(f"{i}. {task}")],
    from counter [i] over the references [rs]: the lines it prints.  The
    loop assigns nothing. *)
Fixpoint show_tasks_loop (s : TodoList) (i : nat) (rs : list ref) : list string :=
  match rs with
  | [] => []
  | task :: rest =>
      match heap s !! task with
      | Some x => (str_of_nat i ++ ". " ++ Task_str x) :: show_tasks_loop s (S i) rest
      | None => show_tasks_loop s (S i) rest
      end
  end.

Definition show_tasks (s : TodoList) : list string :=
  show_tasks_loop s 0 (tasks s).

(** ** [class TodoApp]: the window around the list *)

(** A [tk.Listbox]: the lines it shows and the tuple [curselection()] of
    selected positions. *)
Record Listbox : Type := mkListbox {
  items : list string;
  curselection : list nat
}.

(** The attributes of a [TodoApp] the handlers use: the list, the text of
    the three [tk.Entry] fields, the [tk.Listbox], and the warning dialogs
    [messagebox.showwarning] has shown so far (title and message, oldest
    first). *)
Record TodoApp : Type := mkTodoApp {
  todo_list : TodoList;
  title_entry : string;
  due_date_entry : string;
  priority_entry : string;
  task_listbox : Listbox;
  warnings : list (string * string)
}.

(** Handlers run on the window state and may raise, like the methods of
    the list. *)
Inductive gui_outcome (A : Type) : Type :=
| Returns (a : A) (w : TodoApp)
| Throws (e : exn) (w : TodoApp).
Arguments Returns {A} a w.
Arguments Throws {A} e w.

Definition G (A : Type) : Type := TodoApp -> gui_outcome A.

Definition gret {A} (a : A) : G A := fun w => Returns a w.

Definition gbind {A B} (c : G A) (k : A -> G B) : G B :=
  fun w => match c w with
           | Returns a w' => k a w'
           | Throws e w' => Throws e w'
           end.

Declare Scope gui_scope.
Delimit Scope gui_scope with gui.
Notation "x <- c ;; k" := (gbind c (fun x => k))
  (at level 100, c at next level, right associativity) : gui_scope.
Notation "c ;;; k" := (gbind c (fun _ => k))
  (at level 100, right associativity) : gui_scope.

(** A method call on [self.todo_list]. *)
Definition on_todo_list {A} (m : M A) : G A :=
  fun w =>
    let rest s := mkTodoApp s (title_entry w) (due_date_entry w)
                            (priority_entry w) (task_listbox w) (warnings w) in
    match m (todo_list w) with
    | Ok a s => Returns a (rest s)
    | Raise e s => Throws e (rest s)
    end.

(** [try: body  except IndexError: handler] *)
Definition try_except_IndexError (body handler : G unit) : G unit :=
  fun w => match body w with
           | Returns a w' => Returns a w'
           | Throws IndexError w' => handler w'
           end.

(** [for x in xs: body(x)] *)
Fixpoint for_each {A} (xs : list A) (body : A -> G unit) : G unit :=
  match xs with
  | [] => gret tt
  | x :: rest => gbind (body x) (fun _ => for_each rest body)
  end.

(** [entry.get()] *)
Definition entry_get (entry : TodoApp -> string) : G string :=
  fun w => Returns (entry w) w.

(** [self.title_entry.delete(0, tk.END)] and the same on the other two
    fields. *)
Definition title_entry_delete_all : G unit :=
  fun w => Returns tt (mkTodoApp (todo_list w) "" (due_date_entry w)
                                 (priority_entry w) (task_listbox w) (warnings w)).
Definition due_date_entry_delete_all : G unit :=
  fun w => Returns tt (mkTodoApp (todo_list w) (title_entry w) ""
                                 (priority_entry w) (task_listbox w) (warnings w)).
Definition priority_entry_delete_all : G unit :=
  fun w => Returns tt (mkTodoApp (todo_list w) (title_entry w) (due_date_entry w)
                                 "" (task_listbox w) (warnings w)).

(** [self.task_listbox.delete(0, tk.END)]: no line is left, so none is
    selected. *)
Definition listbox_delete_all : G unit :=
  fun w => Returns tt (mkTodoApp (todo_list w) (title_entry w) (due_date_entry w)
                                 (priority_entry w) (mkListbox [] []) (warnings w)).

(** [self.task_listbox.insert(tk.END, task)]: the line added is
    [str(task)]. *)
Definition listbox_insert_end (task : ref) : G unit :=
  fun w =>
    match heap (todo_list w) !! task with
    | Some x =>
        Returns tt (mkTodoApp (todo_list w) (title_entry w) (due_date_entry w)
                              (priority_entry w)
                              (mkListbox (items (task_listbox w) ++ [Task_str x])
                                         (curselection (task_listbox w)))
                              (warnings w))
    | None => Returns tt w
    end.

(** [self.task_listbox.curselection()[0]]: the first selected position;
    indexing the empty tuple raises [IndexError]. *)
Definition curselection_first : G nat :=
  fun w => match curselection (task_listbox w) with
           | i :: _ => Returns i w
           | [] => Throws IndexError w
           end.

(** [messagebox.showwarning(title, message)] *)
Definition showwarning (title message : string) : G unit :=
  fun w => Returns tt (mkTodoApp (todo_list w) (title_entry w) (due_date_entry w)
                                 (priority_entry w) (task_listbox w)
                                 (warnings w ++ [(title, message)])).

(** [not s] on a [str] *)
Definition not_str (s : string) : bool := String.eqb s "".

(** [TodoApp.__init__]: an empty list, empty fields, an empty list box. *)
Definition TodoApp_init : TodoApp :=
  mkTodoApp TodoList_init "" "" "" (mkListbox [] []) [].

Definition update_task_listbox : G unit :=
  (listbox_delete_all ;;;
   fun w => for_each (tasks (todo_list w)) listbox_insert_end w)%gui.

Definition TodoApp_add_task : G unit :=
  (title <- entry_get title_entry ;;
   due_date <- entry_get due_date_entry ;;
   priority <- entry_get priority_entry ;;
   if (not_str title || not_str due_date || not_str priority)%bool
   then showwarning "入力エラー" "すべてのフィールドを入力してください"
   else (on_todo_list (add_task title due_date priority) ;;;
         update_task_listbox ;;;
         title_entry_delete_all ;;;
         due_date_entry_delete_all ;;;
         priority_entry_delete_all))%gui.

Definition TodoApp_remove_task : G unit :=
  try_except_IndexError
    (selected_task_index <- curselection_first ;;
     on_todo_list (remove_task (Z.of_nat selected_task_index)) ;;;
     update_task_listbox)%gui
    (showwarning "選択エラー" "削除するタスクを選択してください").

Definition TodoApp_mark_completed : G unit :=
  try_except_IndexError
    (selected_task_index <- curselection_first ;;
     on_todo_list (mark_completed (Z.of_nat selected_task_index)) ;;;
     update_task_listbox)%gui
    (showwarning "選択エラー" "完了するタスクを選択してください").

(** The state a handler leaves behind. *)
Definition gfinal {A} (o : gui_outcome A) : TodoApp :=
  match o with
  | Returns _ w => w
  | Throws _ w => w
  end.

(** What the user can do with the window: type into a field, select a
    line of the list box (only a line that is there can be selected, and
    one at a time), or press one of the three buttons. *)
Inductive action : Type :=
| TypeTitle (text : string)
| TypeDueDate (text : string)
| TypePriority (text : string)
| Select (k : nat)
| PressAdd
| PressCompleted
| PressRemove.

Definition perform (a : action) (w : TodoApp) : TodoApp :=
  match a with
  | TypeTitle text =>
      mkTodoApp (todo_list w) text (due_date_entry w) (priority_entry w)
                (task_listbox w) (warnings w)
  | TypeDueDate text =>
      mkTodoApp (todo_list w) (title_entry w) text (priority_entry w)
                (task_listbox w) (warnings w)
  | TypePriority text =>
      mkTodoApp (todo_list w) (title_entry w) (due_date_entry w) text
                (task_listbox w) (warnings w)
  | Select k =>
      if decide (k < length (items (task_listbox w)))
      then mkTodoApp (todo_list w) (title_entry w) (due_date_entry w)
                     (priority_entry w)
                     (mkListbox (items (task_listbox w)) [k]) (warnings w)
      else w
  | PressAdd => gfinal (TodoApp_add_task w)
  | PressCompleted => gfinal (TodoApp_mark_completed w)
  | PressRemove => gfinal (TodoApp_remove_task w)
  end.

(** The window after a sequence of user actions, from a given state and
    from start-up. *)
Definition continue (acts : list action) (w : TodoApp) : TodoApp :=
  foldl (fun w a => perform a w) w acts.

Definition session (acts : list action) : TodoApp :=
  continue acts TodoApp_init.

(** The list box shows the tasks: one line per task, in order, each the
    rendering of its task. *)
Definition shows_tasks (w : TodoApp) : Prop :=
  length (items (task_listbox w)) = length (tasks (todo_list w)) /\
  forall k, items (task_listbox w) !! k = Task_str <$> task_at (todo_list w) k.

(** Every selected position is a line of the list box. *)
Definition selection_valid (w : TodoApp) : Prop :=
  Forall (fun i => i < length (items (task_listbox w)))
         (curselection (task_listbox w)).

(** The index a call passes to [self.tasks[...]], for the three methods
    that index without a guard. *)
Definition indexed (c : call) : option Z :=
  match c with
  | Edit i _ _ _ => Some i
  | MarkCompleted i => Some i
  | MarkIncomplete i => Some i
  | Add _ _ _ => None
  | Remove _ => None
  end.

(** Every task in the list has a title, a due date and a priority that
    are not empty. *)
Definition fields_nonempty (s : TodoList) : Prop :=
  forall k x, task_at s k = Some x ->
    title x <> "" /\ due_date x <> "" /\ priority x <> "".

(** A window used in the examples: two tasks shown, the second selected. *)
Definition window_two_tasks : TodoApp :=
  mkTodoApp two_tasks "" "" ""
            (mkListbox ["A - 2024-01-01 - Low - Not Completed";
                        "B - 2024-01-02 - High - Not Completed"] [1])
            [].

(** The renderings of the tasks of a list, in list order. *)
Definition renderings (s : TodoList) : list string :=
  omap (fun r => Task_str <$> heap s !! r) (tasks s).

(** What holds of the window between two user actions. *)
Definition window_ok (w : TodoApp) : Prop :=
  wf (todo_list w) /\ shows_tasks w /\ selection_valid w /\
  fields_nonempty (todo_list w).

(** The value of a text attribute after [if v: task.attr = v], read off
    Python's truth value of the argument: [None] and the empty string leave
    the old text, a string with at least one character replaces it. *)
Definition given_or_old (v : arg) (old : string) : string :=
  match v with
  | Some (String c rest) => String c rest
  | Some EmptyString => old
  | None => old
  end.

(** Two tasks, the second one completed. *)
Definition second_completed : TodoList :=
  {| heap := [mkTask "A" "2024-01-01" "Low" false;
              mkTask "B" "2024-01-02" "High" true];
     tasks := [0; 1] |}.

(** * Properties *)

(** ** Index normalisation *)

Lemma py_index_nonneg n i :
  (0 <= i < Z.of_nat n)%Z -> py_index n i = Some (Z.to_nat i).
Proof.
  intros [H0 Hn]. unfold py_index.
  destruct (Z.ltb_spec i 0); [lia|].
  destruct (Z.leb_spec 0 i); [|lia].
  destruct (Z.ltb_spec i (Z.of_nat n)); [reflexivity|lia].
Qed.

Lemma py_index_negative n i :
  (- Z.of_nat n <= i < 0)%Z -> py_index n i = Some (Z.to_nat (Z.of_nat n + i)).
Proof.
  intros [H0 Hn]. unfold py_index.
  destruct (Z.ltb_spec i 0); [|lia].
  destruct (Z.leb_spec 0 (i + Z.of_nat n)); [|lia].
  destruct (Z.ltb_spec (i + Z.of_nat n) (Z.of_nat n)); [|lia].
  simpl. do 2 f_equal. lia.
Qed.

Lemma py_index_out n i :
  (Z.of_nat n <= i \/ i < - Z.of_nat n)%Z -> py_index n i = None.
Proof.
  intros H. unfold py_index.
  destruct (Z.ltb_spec i 0).
  - destruct (Z.leb_spec 0 (i + Z.of_nat n)); [lia|reflexivity].
  - destruct (Z.leb_spec 0 i); [|lia].
    destruct (Z.ltb_spec i (Z.of_nat n)); [lia|reflexivity].
Qed.

Lemma py_index_lt n i k : py_index n i = Some k -> k < n.
Proof.
  unfold py_index.
  destruct (Z.ltb_spec i 0);
    match goal with |- context [(0 <=? ?j)%Z] =>
      destruct (Z.leb_spec 0 j); simpl; [|discriminate];
      destruct (Z.ltb_spec j (Z.of_nat n)); [|discriminate]
    end; intros [= <-]; lia.
Qed.

(** ** Indexing [self.tasks] *)

Lemma list_getitem_ok s i k r :
  py_index (length (tasks s)) i = Some k -> tasks s !! k = Some r ->
  list_getitem i s = Ok r s.
Proof. intros Hi Hk. unfold list_getitem. by rewrite Hi, Hk. Qed.

Lemma list_getitem_out s i :
  py_index (length (tasks s)) i = None -> list_getitem i s = Raise IndexError s.
Proof. intros Hi. unfold list_getitem. by rewrite Hi. Qed.

Lemma list_getitem_total s i k :
  py_index (length (tasks s)) i = Some k ->
  exists r, tasks s !! k = Some r /\ list_getitem i s = Ok r s.
Proof.
  intros Hi.
  destruct (lookup_lt_is_Some_2 (tasks s) k (py_index_lt _ _ _ Hi)) as [r Hr].
  exists r. split; [done|]. by apply list_getitem_ok with k.
Qed.

(** ** What each method computes *)

Lemma assign_if_truthy_run v upd r s :
  assign_if_truthy v upd r s =
  Ok tt {| heap := alter (fun x => match v with
                                   | Some a => if truthy v then upd a x else x
                                   | None => x
                                   end) r (heap s);
           tasks := tasks s |}.
Proof.
  unfold assign_if_truthy. destruct v as [a|].
  - destruct (truthy (Some a)); [reflexivity|].
    unfold ret. rewrite list_alter_id by done. by destruct s.
  - unfold ret. rewrite list_alter_id by done. by destruct s.
Qed.

Lemma edit_task_at s i k r t d p :
  py_index (length (tasks s)) i = Some k -> tasks s !! k = Some r ->
  edit_task i t d p s =
  Ok tt {| heap := alter (edited t d p) r (heap s); tasks := tasks s |}.
Proof.
  intros Hi Hk. unfold edit_task, bind.
  rewrite (list_getitem_ok s i k r Hi Hk).
  rewrite !assign_if_truthy_run; simpl.
  rewrite !list_alter_alter_eq. do 2 f_equal.
  apply list_alter_ext; [|done]. intros [xt xd xp xc] _. unfold edited, updated; simpl.
  destruct t, d, p; simpl; repeat case_match; reflexivity.
Qed.

Lemma mark_completed_at s i k r :
  py_index (length (tasks s)) i = Some k -> tasks s !! k = Some r ->
  mark_completed i s =
  Ok tt {| heap := alter (set_is_completed true) r (heap s); tasks := tasks s |}.
Proof.
  intros Hi Hk. unfold mark_completed, bind.
  by rewrite (list_getitem_ok s i k r Hi Hk).
Qed.

Lemma mark_incomplete_at s i k r :
  py_index (length (tasks s)) i = Some k -> tasks s !! k = Some r ->
  mark_incomplete i s =
  Ok tt {| heap := alter (set_is_completed false) r (heap s); tasks := tasks s |}.
Proof.
  intros Hi Hk. unfold mark_incomplete, bind.
  by rewrite (list_getitem_ok s i k r Hi Hk).
Qed.

Lemma remove_task_at s i :
  (0 <= i < len s)%Z ->
  remove_task i s =
  Ok tt {| heap := heap s; tasks := delete (Z.to_nat i) (tasks s) |}.
Proof.
  intros Hi. unfold len in Hi. unfold remove_task, bind, list_len.
  destruct (Z.leb_spec 0 i); [|lia].
  destruct (Z.ltb_spec i (Z.of_nat (length (tasks s)))); [|lia]. simpl.
  unfold list_pop. rewrite py_index_nonneg by lia.
  destruct (lookup_lt_is_Some_2 (tasks s) (Z.to_nat i)) as [r Hr]; [lia|].
  by rewrite Hr.
Qed.

Lemma remove_task_skip s i :
  (i < 0 \/ len s <= i)%Z -> remove_task i s = Ok tt s.
Proof.
  intros Hi. unfold len in Hi. unfold remove_task, bind, list_len.
  destruct (Z.leb_spec 0 i); simpl; [|reflexivity].
  destruct (Z.ltb_spec i (Z.of_nat (length (tasks s)))); [lia|reflexivity].
Qed.

Lemma add_task_run s t d p :
  add_task t d p s =
  Ok tt {| heap := heap s ++ [mkTask t d p false];
           tasks := tasks s ++ [length (heap s)] |}.
Proof. reflexivity. Qed.

(** ** Reading a task back after an attribute assignment *)

Lemma task_at_alter_same s f k r :
  tasks s !! k = Some r ->
  task_at {| heap := alter f r (heap s); tasks := tasks s |} k = f <$> task_at s k.
Proof.
  intros Hk. unfold task_at; cbn [heap tasks]. rewrite Hk; cbn [mbind option_bind].
  apply list_lookup_alter_eq.
Qed.

Lemma task_at_alter_other s f k r j :
  NoDup (tasks s) -> tasks s !! k = Some r -> j <> k ->
  task_at {| heap := alter f r (heap s); tasks := tasks s |} j = task_at s j.
Proof.
  intros Hnd Hk Hj. unfold task_at; cbn [heap tasks].
  destruct (tasks s !! j) as [r'|] eqn:Hr'; cbn [mbind option_bind]; [|reflexivity].
  apply list_lookup_alter_ne. intros ->.
  apply Hj. by apply (NoDup_lookup (tasks s) j k r').
Qed.

Lemma task_at_valid s k : wf s -> k < length (tasks s) -> is_Some (task_at s k).
Proof.
  intros [_ Hb] Hk. unfold task_at.
  destruct (lookup_lt_is_Some_2 (tasks s) k Hk) as [r Hr].
  rewrite Hr; cbn [mbind option_bind].
  apply lookup_lt_is_Some_2.
  by apply (proj1 (Forall_lookup _ _) Hb k r).
Qed.

(** ** The ownership invariant holds in every state a client can reach *)

Lemma wf_init : wf TodoList_init.
Proof. split; [apply NoDup_nil_2 | apply Forall_nil_2]. Qed.

Lemma wf_alter s f r :
  wf s -> wf {| heap := alter f r (heap s); tasks := tasks s |}.
Proof. intros [Hnd Hb]. split; simpl; [done|]. by rewrite length_alter. Qed.

Lemma wf_delete s k :
  wf s -> wf {| heap := heap s; tasks := delete k (tasks s) |}.
Proof.
  intros [Hnd Hb]. split; simpl.
  - eapply sublist_NoDup; [exact Hnd|]. apply sublist_delete.
  - by apply Forall_delete.
Qed.

Lemma wf_append s x :
  wf s ->
  wf {| heap := heap s ++ [x]; tasks := tasks s ++ [length (heap s)] |}.
Proof.
  intros [Hnd Hb]. split; simpl.
  - apply NoDup_app. split; [done|]. split; [|apply NoDup_singleton].
    intros r Hr Hin. apply list_elem_of_singleton in Hin. subst r.
    pose proof (proj1 (Forall_forall _ _) Hb _ Hr) as Hlt. simpl in Hlt. lia.
  - rewrite length_app; simpl. apply Forall_app. split.
    + eapply Forall_impl; [exact Hb|]. simpl. intros; lia.
    + apply Forall_singleton. lia.
Qed.

Lemma wf_getitem_then s i (f : Task -> Task) :
  wf s -> wf (final ((task <- list_getitem i ;; setattr f task) s)).
Proof.
  intros Hwf. unfold bind.
  destruct (py_index (length (tasks s)) i) as [k|] eqn:Hi.
  - destruct (list_getitem_total s i k Hi) as (r & _ & ->). simpl.
    by apply wf_alter.
  - by rewrite (list_getitem_out s i Hi).
Qed.

Lemma wf_exec c s : wf s -> wf (final (exec c s)).
Proof.
  intros Hwf. destruct c as [t d p|i|i t d p|i|i]; cbn [exec].
  - rewrite add_task_run. simpl. by apply wf_append.
  - destruct (Z_lt_dec i 0) as [Hneg|Hnn].
    + rewrite remove_task_skip by lia. done.
    + destruct (Z_lt_dec i (len s)) as [Hlt|Hge].
      * rewrite remove_task_at by lia. simpl. by apply wf_delete.
      * rewrite remove_task_skip by lia. done.
  - destruct (py_index (length (tasks s)) i) as [k|] eqn:Hi.
    + destruct (list_getitem_total s i k Hi) as (r & Hr & _).
      rewrite (edit_task_at s i k r t d p Hi Hr). simpl. by apply wf_alter.
    + unfold edit_task, bind. by rewrite (list_getitem_out s i Hi).
  - by apply wf_getitem_then.
  - by apply wf_getitem_then.
Qed.

Lemma wf_run cs : forall s, wf s -> wf (run cs s).
Proof.
  unfold run. induction cs as [|c cs IH]; intros s Hwf; simpl; [done|].
  apply IH. by apply wf_exec.
Qed.

Lemma wf_reachable cs : wf (run cs TodoList_init).
Proof. apply wf_run, wf_init. Qed.

Lemma wf_one_task : wf one_task.
Proof. exact (wf_reachable [Add "A" "2024-01-01" "Low"]). Qed.

Lemma wf_two_tasks : wf two_tasks.
Proof.
  exact (wf_reachable [Add "A" "2024-01-01" "Low"; Add "B" "2024-01-02" "High"]).
Qed.

(** Adding a task leaves the tasks already in the list as they were. *)
Lemma add_task_frame s t d p k :
  wf s -> k < length (tasks s) ->
  task_at (final (add_task t d p s)) k = task_at s k.
Proof.
  intros Hwf Hk. rewrite add_task_run. unfold task_at; cbn [final heap tasks].
  rewrite lookup_app_l by done.
  destruct (tasks s !! k) as [r|] eqn:Hr; cbn [mbind option_bind]; [|reflexivity].
  apply lookup_app_l.
  by apply (proj1 (Forall_lookup _ _) (proj2 Hwf) k r).
Qed.

(** A no-op update of the stored attribute values leaves the store as it
    was. *)
Lemma alter_fixed (f : Task -> Task) (h : list Task) r x :
  h !! r = Some x -> f x = x -> alter f r h = h.
Proof.
  intros Hr Hf. transitivity (alter id r h).
  - apply list_alter_ext; [|done]. intros y Hy.
    rewrite Hr in Hy. injection Hy as <-. exact Hf.
  - by apply list_alter_id.
Qed.

Lemma updated_empty v old : updated v old = "" -> old = "".
Proof.
  unfold updated, truthy. destruct v as [x|]; [|done].
  destruct (String.eqb_spec x ""); simpl; [done|]. intros ->. done.
Qed.

(** * The claims *)

(** ** Out-of-range indices in [edit_task], [mark_completed], [mark_incomplete] *)

Lemma updated_given_or_old v old : updated v old = given_or_old v old.
Proof. by destruct v as [[|c rest]|]. Qed.

(** An index in [-length, -1] in the three unguarded methods: the call
    returns, is the call at index [length + i], and the task read back at
    position [length + i] has the new values. *)
Lemma index_from_the_end s i t d p :
  (- len s <= i <= -1)%Z ->
  let k := Z.to_nat (len s + i) in
  (exists s',
     edit_task i t d p s = Ok tt s' /\
     edit_task (len s + i) t d p s = Ok tt s' /\
     forall x, task_at s k = Some x ->
       task_at s' k =
       Some (mkTask (given_or_old t (title x)) (given_or_old d (due_date x))
                    (given_or_old p (priority x)) (is_completed x))) /\
  (exists s',
     mark_completed i s = Ok tt s' /\
     mark_completed (len s + i) s = Ok tt s' /\
     forall x, task_at s k = Some x ->
       task_at s' k = Some (mkTask (title x) (due_date x) (priority x) true)) /\
  (exists s',
     mark_incomplete i s = Ok tt s' /\
     mark_incomplete (len s + i) s = Ok tt s' /\
     forall x, task_at s k = Some x ->
       task_at s' k = Some (mkTask (title x) (due_date x) (priority x) false)).
Proof.
  intros Hi k. unfold len in *.
  assert (Hneg : py_index (length (tasks s)) i = Some k)
    by (apply py_index_negative; lia).
  assert (Hpos : py_index (length (tasks s)) (Z.of_nat (length (tasks s)) + i)
                 = Some k)
    by (apply py_index_nonneg; lia).
  destruct (list_getitem_total s i k Hneg) as (r & Hr & _).
  split; [|split]; eexists.
  - split; [exact (edit_task_at s i k r t d p Hneg Hr)|].
    split; [exact (edit_task_at s _ k r t d p Hpos Hr)|].
    intros x Hx. rewrite task_at_alter_same by done. rewrite Hx.
    cbn [fmap option_fmap option_map]. unfold edited.
    by rewrite !updated_given_or_old.
  - split; [exact (mark_completed_at s i k r Hneg Hr)|].
    split; [exact (mark_completed_at s _ k r Hpos Hr)|].
    intros x Hx. rewrite task_at_alter_same by done. by rewrite Hx.
  - split; [exact (mark_incomplete_at s i k r Hneg Hr)|].
    split; [exact (mark_incomplete_at s _ k r Hpos Hr)|].
    intros x Hx. rewrite task_at_alter_same by done. by rewrite Hx.
Qed.

(** C1, as the code has it.  When [index >= length] or [index < -length],
    [edit_task], [mark_completed] and [mark_incomplete] raise [IndexError],
    which the method does not catch, and nothing has been mutated.  When
    [-length <= index <= -1] the index is not out of range for them: none
    of the three faults, each returns what the call at index
    [length + index] returns, and the task read back at position
    [length + index] carries the assignment ([mark_completed] leaves its
    flag true, [mark_incomplete] false, [edit_task] the given non-empty
    texts). *)
Theorem unguarded_index_faults_or_counts_from_the_end s i t d p :
  ((len s <= i \/ i < - len s)%Z ->
   edit_task i t d p s = Raise IndexError s /\
   mark_completed i s = Raise IndexError s /\
   mark_incomplete i s = Raise IndexError s) /\
  ((- len s <= i <= -1)%Z ->
   let k := Z.to_nat (len s + i) in
   (faults (edit_task i t d p s) = false /\
    faults (mark_completed i s) = false /\
    faults (mark_incomplete i s) = false) /\
   (exists s',
      edit_task i t d p s = Ok tt s' /\
      edit_task (len s + i) t d p s = Ok tt s' /\
      forall x, task_at s k = Some x ->
        task_at s' k =
        Some (mkTask (given_or_old t (title x)) (given_or_old d (due_date x))
                     (given_or_old p (priority x)) (is_completed x))) /\
   (exists s',
      mark_completed i s = Ok tt s' /\
      mark_completed (len s + i) s = Ok tt s' /\
      forall x, task_at s k = Some x ->
        task_at s' k = Some (mkTask (title x) (due_date x) (priority x) true)) /\
   (exists s',
      mark_incomplete i s = Ok tt s' /\
      mark_incomplete (len s + i) s = Ok tt s' /\
      forall x, task_at s k = Some x ->
        task_at s' k = Some (mkTask (title x) (due_date x) (priority x) false))).
Proof.
  split.
  - intros Hi.
    assert (Hg : list_getitem i s = Raise IndexError s).
    { apply list_getitem_out, py_index_out. exact Hi. }
    unfold edit_task, mark_completed, mark_incomplete, bind.
    rewrite Hg. repeat split.
  - intros Hi k.
    destruct (index_from_the_end s i t d p Hi)
      as ((s1 & He & He' & Hx1) & (s2 & Hc & Hc' & Hx2) & (s3 & Hn & Hn' & Hx3)).
    split; [by rewrite He, Hc, Hn|].
    split; [by exists s1|]. split; [by exists s2|by exists s3].
Qed.

Lemma unguarded_index_faults_or_counts_from_the_end_witness :
  (len second_completed <= 2 \/ 2 < - len second_completed)%Z /\
  (- len second_completed <= -1 <= -1)%Z /\
  (edit_task 2 (Some "C") None None second_completed
     = Raise IndexError second_completed /\
   mark_completed 2 second_completed = Raise IndexError second_completed /\
   mark_incomplete 2 second_completed = Raise IndexError second_completed) /\
  faults (mark_incomplete (-1) second_completed) = false /\
  exists s',
    mark_incomplete (-1) second_completed = Ok tt s' /\
    task_at s' 1 = Some (mkTask "B" "2024-01-02" "High" false).
Proof.
  assert (Hout : (len second_completed <= 2 \/ 2 < - len second_completed)%Z)
    by (left; vm_compute; discriminate).
  assert (Hin : (- len second_completed <= -1 <= -1)%Z)
    by (vm_compute; split; discriminate).
  split; [exact Hout|]. split; [exact Hin|].
  split;
    [exact (proj1 (unguarded_index_faults_or_counts_from_the_end
                     second_completed 2 (Some "C") None None) Hout)|].
  destruct (proj2 (unguarded_index_faults_or_counts_from_the_end
                     second_completed (-1) None None None) Hin)
    as ((_ & _ & Hf) & _ & _ & (s' & Hrun & _ & Hat)).
  split; [exact Hf|]. exists s'. split; [exact Hrun|].
  exact (Hat (mkTask "B" "2024-01-02" "High" true) eq_refl).
Defined.

(** C1, as stated, fails at index [-1] of a list of one task: the index is
    negative, yet none of the three methods faults; [mark_completed] sets
    the flag of the only task. *)
Lemma negative_index_does_not_fault :
  add_task "A" "2024-01-01" "Low" TodoList_init = Ok tt one_task /\
  (-1 < 0)%Z /\
  mark_completed (-1) one_task =
    Ok tt {| heap := [mkTask "A" "2024-01-01" "Low" true]; tasks := [0] |} /\
  faults (mark_completed (-1) one_task) = false /\
  faults (mark_incomplete (-1) one_task) = false /\
  faults (edit_task (-1) (Some "Z") None None one_task) = false.
Proof. repeat split. Qed.

(** ** [remove_task] *)

(** C2: for [0 <= i < length], [remove_task i] returns, the length drops by
    exactly one, the tasks before position [i] stay where they are, every
    task at a position [k > i] is found at [k - 1], and what remains is
    the old sequence with one element taken out, in the old order; no
    task object is touched. *)
Theorem remove_task_in_range s i :
  (0 <= i < len s)%Z ->
  exists s',
    remove_task i s = Ok tt s' /\
    (len s' = len s - 1)%Z /\
    (forall k, k < Z.to_nat i -> task_at s' k = task_at s k) /\
    (forall k, Z.to_nat i < k -> task_at s' (k - 1) = task_at s k) /\
    tasks s' `sublist_of` tasks s /\
    heap s' = heap s.
Proof.
  intros Hi. eexists. split; [by apply remove_task_at|].
  unfold len in *; cbn [heap tasks].
  split; [|split; [|split; [|split]]].
  - rewrite length_delete; [lia|]. apply lookup_lt_is_Some_2. lia.
  - intros k Hk. unfold task_at; cbn [heap tasks].
    by rewrite list_lookup_delete_lt.
  - intros k Hk. unfold task_at; cbn [heap tasks].
    rewrite list_lookup_delete_ge by lia.
    by replace (S (k - 1)) with k by lia.
  - apply sublist_delete.
  - reflexivity.
Qed.

Lemma remove_task_in_range_witness :
  (0 <= 0 < len two_tasks)%Z /\
  exists s',
    remove_task 0 two_tasks = Ok tt s' /\
    (len s' = len two_tasks - 1)%Z /\
    (forall k, k < Z.to_nat 0 -> task_at s' k = task_at two_tasks k) /\
    (forall k, Z.to_nat 0 < k -> task_at s' (k - 1) = task_at two_tasks k) /\
    tasks s' `sublist_of` tasks two_tasks /\
    heap s' = heap two_tasks.
Proof.
  split; [vm_compute; split; [discriminate|reflexivity]|].
  apply (remove_task_in_range two_tasks 0).
  vm_compute; split; [discriminate|reflexivity].
Defined.

(** C3: for [i < 0] or [i >= length], [remove_task i] returns normally
    with the whole state as it was: no error, same length, no task
    changed. *)
Theorem remove_task_out_of_range s i :
  (i < 0 \/ len s <= i)%Z -> remove_task i s = Ok tt s.
Proof. apply remove_task_skip. Qed.

Lemma remove_task_out_of_range_witness :
  ((-1) < 0 \/ len two_tasks <= (-1))%Z /\
  remove_task (-1) two_tasks = Ok tt two_tasks.
Proof.
  split; [left; reflexivity|].
  apply (remove_task_out_of_range two_tasks (-1)). left; reflexivity.
Defined.

(** ** [add_task] *)

(** C4: [add_task] always returns; the length grows by exactly one, the
    new reference is appended after the [n] old ones, and the task read
    back at position [n] has the given title, due date and priority and is
    not completed. *)
Theorem add_task_appends s t d p :
  exists s',
    add_task t d p s = Ok tt s' /\
    (len s' = len s + 1)%Z /\
    take (length (tasks s)) (tasks s') = tasks s /\
    task_at s' (length (tasks s)) = Some (mkTask t d p false) /\
    task_at s' (Z.to_nat (len s' - 1)) = Some (mkTask t d p false).
Proof.
  eexists. split; [apply add_task_run|].
  assert (Hlast : task_at {| heap := heap s ++ [mkTask t d p false];
                             tasks := tasks s ++ [length (heap s)] |}
                          (length (tasks s)) = Some (mkTask t d p false)).
  { unfold task_at; cbn [heap tasks].
    rewrite list_lookup_middle by done. cbn [mbind option_bind].
    by rewrite list_lookup_middle. }
  unfold len; cbn [heap tasks]. rewrite length_app; cbn [length].
  split; [lia|]. split; [by rewrite take_app_length|]. split; [exact Hlast|].
  replace (Z.to_nat (Z.of_nat (length (tasks s) + 1) - 1)) with (length (tasks s))
    by lia.
  exact Hlast.
Qed.

(** ** [edit_task] *)

(** C5: on a task at a valid index, [edit_task i "" X ""] with a non-empty
    [X] sets the due date to [X] and nothing else: title, priority and the
    flag keep their values, and so does every other task.  Whatever the
    arguments, a field that is empty after [edit_task] was empty before:
    the call cannot set a field to the empty string. *)
Theorem edit_task_empty_fields_ignored s i x X :
  wf s -> (0 <= i < len s)%Z -> task_at s (Z.to_nat i) = Some x -> X <> "" ->
  (exists s',
     edit_task i (Some "") (Some X) (Some "") s = Ok tt s' /\
     task_at s' (Z.to_nat i) =
       Some (mkTask (title x) X (priority x) (is_completed x)) /\
     (forall k, k <> Z.to_nat i -> task_at s' k = task_at s k) /\
     tasks s' = tasks s) /\
  (forall t d p, exists s' x',
     edit_task i t d p s = Ok tt s' /\
     task_at s' (Z.to_nat i) = Some x' /\
     (title x' = "" -> title x = "") /\
     (due_date x' = "" -> due_date x = "") /\
     (priority x' = "" -> priority x = "")).
Proof.
  intros [Hnd _] Hi Hx HX. unfold len in Hi.
  assert (Hpi : py_index (length (tasks s)) i = Some (Z.to_nat i))
    by (apply py_index_nonneg; lia).
  destruct (list_getitem_total s i _ Hpi) as (r & Hr & _).
  split.
  - eexists. split; [exact (edit_task_at s i _ r _ _ _ Hpi Hr)|].
    split; [|split].
    + rewrite task_at_alter_same by done. rewrite Hx. cbn [fmap option_fmap option_map].
      f_equal. unfold edited, updated, truthy.
      destruct (String.eqb_spec X ""); [done|reflexivity].
    + intros k Hk. by apply task_at_alter_other with (Z.to_nat i).
    + reflexivity.
  - intros t d p. eexists. exists (edited t d p x).
    split; [exact (edit_task_at s i _ r _ _ _ Hpi Hr)|].
    split; [rewrite task_at_alter_same by done; by rewrite Hx|].
    unfold edited; cbn [title due_date priority].
    repeat split; apply updated_empty.
Qed.

Lemma edit_task_empty_fields_ignored_witness :
  wf one_task /\ (0 <= 0 < len one_task)%Z /\
  task_at one_task (Z.to_nat 0) = Some (mkTask "A" "2024-01-01" "Low" false) /\
  "X" <> "" /\
  exists s',
    edit_task 0 (Some "") (Some "X") (Some "") one_task = Ok tt s' /\
    task_at s' (Z.to_nat 0) = Some (mkTask "A" "X" "Low" false).
Proof.
  assert (Hr : (0 <= 0 < len one_task)%Z)
    by (vm_compute; split; [discriminate|reflexivity]).
  assert (Hx : "X" <> "") by discriminate.
  split; [exact wf_one_task|]. split; [exact Hr|].
  split; [reflexivity|]. split; [exact Hx|].
  destruct (edit_task_empty_fields_ignored one_task 0
              (mkTask "A" "2024-01-01" "Low" false) "X"
              wf_one_task Hr eq_refl Hx) as [(s' & Hrun & Hat & _) _].
  exists s'. split; [exact Hrun|exact Hat].
Defined.

(** ** [Task.__str__] *)

(** C6: the rendering of a task is its title, due date, priority and
    status joined by [" - "], where the status is ["Completed"] for a
    completed task and ["Not Completed"] otherwise; it is a function of the
    attribute values alone.  For [Task("Buy milk","2024-01-01","High")],
    not completed, it is ["Buy milk - 2024-01-01 - High - Not Completed"]. *)
Theorem Task_str_format :
  (forall x,
     Task_str x =
     String.concat " - "
       [title x; due_date x; priority x;
        if is_completed x then "Completed" else "Not Completed"]) /\
  Task_str (mkTask "Buy milk" "2024-01-01" "High" false) =
    "Buy milk - 2024-01-01 - High - Not Completed".
Proof. split; [intros x; reflexivity|reflexivity]. Qed.

(** ** [mark_completed] and [mark_incomplete] *)

(** C7: on a task that is not completed, [mark_completed i] followed by
    [mark_incomplete i] both return, the flag is true in between and false
    again at the end; the whole state is back to what it was. *)
Theorem mark_completed_then_incomplete s i x :
  (0 <= i < len s)%Z -> task_at s (Z.to_nat i) = Some x ->
  is_completed x = false ->
  exists s1 s2,
    mark_completed i s = Ok tt s1 /\
    is_completed <$> task_at s1 (Z.to_nat i) = Some true /\
    mark_incomplete i s1 = Ok tt s2 /\
    is_completed <$> task_at s2 (Z.to_nat i) = Some false /\
    s2 = s.
Proof.
  intros Hi Hx Hc. unfold len in Hi.
  assert (Hpi : py_index (length (tasks s)) i = Some (Z.to_nat i))
    by (apply py_index_nonneg; lia).
  destruct (list_getitem_total s i _ Hpi) as (r & Hr & _).
  assert (Hh : heap s !! r = Some x).
  { unfold task_at in Hx. by rewrite Hr in Hx. }
  set (s1 := {| heap := alter (set_is_completed true) r (heap s);
                tasks := tasks s |}).
  assert (Hback : {| heap := alter (set_is_completed false) r (heap s1);
                     tasks := tasks s1 |} = s).
  { subst s1; cbn [heap tasks]. rewrite list_alter_alter_eq.
    rewrite (alter_fixed _ (heap s) r x Hh); [by destruct s|].
    destruct x as [xt xd xp xc]; cbn in Hc |- *. by rewrite Hc. }
  exists s1, s. split; [exact (mark_completed_at s i _ r Hpi Hr)|].
  split.
  { subst s1. rewrite task_at_alter_same by done. by rewrite Hx. }
  split.
  { rewrite (mark_incomplete_at s1 i (Z.to_nat i) r Hpi Hr). by rewrite Hback. }
  split; [|reflexivity]. by rewrite Hx, <- Hc.
Qed.

Lemma mark_completed_then_incomplete_witness :
  (0 <= 0 < len one_task)%Z /\
  task_at one_task (Z.to_nat 0) = Some (mkTask "A" "2024-01-01" "Low" false) /\
  is_completed (mkTask "A" "2024-01-01" "Low" false) = false /\
  exists s1 s2,
    mark_completed 0 one_task = Ok tt s1 /\
    is_completed <$> task_at s1 (Z.to_nat 0) = Some true /\
    mark_incomplete 0 s1 = Ok tt s2 /\
    is_completed <$> task_at s2 (Z.to_nat 0) = Some false /\
    s2 = one_task.
Proof.
  assert (Hr : (0 <= 0 < len one_task)%Z)
    by (vm_compute; split; [discriminate|reflexivity]).
  split; [exact Hr|]. split; [reflexivity|]. split; [reflexivity|].
  exact (mark_completed_then_incomplete one_task 0
           (mkTask "A" "2024-01-01" "Low" false) Hr eq_refl eq_refl).
Defined.

(** ** A scenario *)

(** C8: from the empty list, adding ["A"], adding ["B"] and removing
    position [0] leaves exactly one task, [Task("B","2024-01-02","High")],
    not completed, at position [0]. *)
Theorem scenario_add_add_remove :
  exists s',
    (add_task "A" "2024-01-01" "Low" ;;;
     add_task "B" "2024-01-02" "High" ;;;
     remove_task 0) TodoList_init = Ok tt s' /\
    len s' = 1%Z /\
    task_at s' 0 = Some (mkTask "B" "2024-01-02" "High" false).
Proof. eexists. repeat split. Qed.

(** ** Frame of the two marking methods *)

(** What [tasks[i].is_completed = b] does at a valid index of a list that
    owns its tasks. *)
Lemma set_flag_frame s i b :
  wf s -> (0 <= i < len s)%Z ->
  exists r x,
    py_index (length (tasks s)) i = Some (Z.to_nat i) /\
    tasks s !! Z.to_nat i = Some r /\
    task_at s (Z.to_nat i) = Some x /\
    let s' := {| heap := alter (set_is_completed b) r (heap s);
                 tasks := tasks s |} in
    task_at s' (Z.to_nat i) =
      Some (mkTask (title x) (due_date x) (priority x) b) /\
    (forall k, k <> Z.to_nat i -> task_at s' k = task_at s k).
Proof.
  intros Hwf Hi. unfold len in Hi.
  assert (Hpi : py_index (length (tasks s)) i = Some (Z.to_nat i))
    by (apply py_index_nonneg; lia).
  destruct (list_getitem_total s i _ Hpi) as (r & Hr & _).
  destruct (task_at_valid s (Z.to_nat i) Hwf) as [x Hx]; [lia|].
  exists r, x. repeat split; try done.
  - rewrite task_at_alter_same by done. by rewrite Hx.
  - intros k Hk. apply task_at_alter_other with (Z.to_nat i); [apply Hwf|done..].
Qed.

(** C9: at a valid index [i], [mark_completed] and [mark_incomplete] return
    and change nothing but the flag of the task at position [i]: its
    title, due date and priority are as before, every other position reads
    as before, and [self.tasks] is the same sequence of references, so
    length and order are as before. *)
Theorem mark_changes_only_the_flag s i :
  wf s -> (0 <= i < len s)%Z ->
  exists x, task_at s (Z.to_nat i) = Some x /\
  (exists s',
     mark_completed i s = Ok tt s' /\
     task_at s' (Z.to_nat i) =
       Some (mkTask (title x) (due_date x) (priority x) true) /\
     (forall k, k <> Z.to_nat i -> task_at s' k = task_at s k) /\
     tasks s' = tasks s /\ len s' = len s) /\
  (exists s',
     mark_incomplete i s = Ok tt s' /\
     task_at s' (Z.to_nat i) =
       Some (mkTask (title x) (due_date x) (priority x) false) /\
     (forall k, k <> Z.to_nat i -> task_at s' k = task_at s k) /\
     tasks s' = tasks s /\ len s' = len s).
Proof.
  intros Hwf Hi.
  destruct (set_flag_frame s i true Hwf Hi) as (r & x & Hpi & Hr & Hx & Ht & Hft).
  destruct (set_flag_frame s i false Hwf Hi) as (r' & x' & _ & Hr' & Hx' & Hf & Hff).
  assert (r' = r) as -> by congruence.
  assert (x' = x) as -> by congruence.
  exists x. split; [exact Hx|]. split.
  - eexists. split; [exact (mark_completed_at s i _ r Hpi Hr)|].
    split; [exact Ht|]. split; [exact Hft|]. split; reflexivity.
  - eexists. split; [exact (mark_incomplete_at s i _ r Hpi Hr)|].
    split; [exact Hf|]. split; [exact Hff|]. split; reflexivity.
Qed.

Lemma mark_changes_only_the_flag_witness :
  wf two_tasks /\ (0 <= 1 < len two_tasks)%Z /\
  exists x, task_at two_tasks (Z.to_nat 1) = Some x /\
  (exists s',
     mark_completed 1 two_tasks = Ok tt s' /\
     task_at s' (Z.to_nat 1) =
       Some (mkTask (title x) (due_date x) (priority x) true) /\
     (forall k, k <> Z.to_nat 1 -> task_at s' k = task_at two_tasks k) /\
     tasks s' = tasks two_tasks /\ len s' = len two_tasks) /\
  (exists s',
     mark_incomplete 1 two_tasks = Ok tt s' /\
     task_at s' (Z.to_nat 1) =
       Some (mkTask (title x) (due_date x) (priority x) false) /\
     (forall k, k <> Z.to_nat 1 -> task_at s' k = task_at two_tasks k) /\
     tasks s' = tasks two_tasks /\ len s' = len two_tasks).
Proof.
  assert (Hr : (0 <= 1 < len two_tasks)%Z)
    by (vm_compute; split; [discriminate|reflexivity]).
  split; [exact wf_two_tasks|]. split; [exact Hr|].
  exact (mark_changes_only_the_flag two_tasks 1 wf_two_tasks Hr).
Defined.

(** ** Negative indices *)

(** C10: on a list of length [n], an index [i] with [-n <= i <= -1] makes
    none of [edit_task], [mark_completed], [mark_incomplete] fault: each
    returns, does what the same call does at index [n + i], and mutates the
    task at position [n + i]: read back there, it has the flag true after
    [mark_completed], false after [mark_incomplete], and after [edit_task]
    every text given non-empty, the other attributes as before.  On a list
    that owns its tasks there is a task at that position. *)
Theorem negative_index_counts_from_the_end s i t d p :
  (- len s <= i <= -1)%Z ->
  let k := Z.to_nat (len s + i) in
  (wf s -> is_Some (task_at s k)) /\
  (exists s',
     edit_task i t d p s = Ok tt s' /\
     edit_task (len s + i) t d p s = Ok tt s' /\
     forall x, task_at s k = Some x ->
       task_at s' k =
       Some (mkTask (given_or_old t (title x)) (given_or_old d (due_date x))
                    (given_or_old p (priority x)) (is_completed x))) /\
  (exists s',
     mark_completed i s = Ok tt s' /\
     mark_completed (len s + i) s = Ok tt s' /\
     forall x, task_at s k = Some x ->
       task_at s' k = Some (mkTask (title x) (due_date x) (priority x) true)) /\
  (exists s',
     mark_incomplete i s = Ok tt s' /\
     mark_incomplete (len s + i) s = Ok tt s' /\
     forall x, task_at s k = Some x ->
       task_at s' k = Some (mkTask (title x) (due_date x) (priority x) false)).
Proof.
  intros Hi k. split; [|exact (index_from_the_end s i t d p Hi)].
  intros Hwf. apply task_at_valid; [exact Hwf|]. subst k. unfold len in *. lia.
Qed.

Lemma negative_index_counts_from_the_end_witness :
  (- len second_completed <= -1 <= -1)%Z /\
  (- len second_completed <= -2 <= -1)%Z /\
  (exists s',
     edit_task (-1) (Some "C") (Some "") None second_completed = Ok tt s' /\
     task_at s' 1 = Some (mkTask "C" "2024-01-02" "High" true)) /\
  (exists s',
     mark_incomplete (-1) second_completed = Ok tt s' /\
     task_at s' 1 = Some (mkTask "B" "2024-01-02" "High" false)) /\
  (exists s',
     mark_completed (-2) second_completed = Ok tt s' /\
     task_at s' 0 = Some (mkTask "A" "2024-01-01" "Low" true)).
Proof.
  assert (H1 : (- len second_completed <= -1 <= -1)%Z)
    by (vm_compute; split; discriminate).
  assert (H2 : (- len second_completed <= -2 <= -1)%Z)
    by (vm_compute; split; discriminate).
  split; [exact H1|]. split; [exact H2|].
  destruct (negative_index_counts_from_the_end second_completed (-1)
              (Some "C") (Some "") None H1)
    as (_ & (s1 & He & _ & Hat1) & _ & (s3 & Hn & _ & Hat3)).
  destruct (negative_index_counts_from_the_end second_completed (-2)
              None None None H2)
    as (_ & _ & (s2 & Hc & _ & Hat2) & _).
  split; [exists s1; split; [exact He|]|split; [exists s3; split; [exact Hn|]
                                               |exists s2; split; [exact Hc|]]].
  - exact (Hat1 (mkTask "B" "2024-01-02" "High" true) eq_refl).
  - exact (Hat3 (mkTask "B" "2024-01-02" "High" true) eq_refl).
  - exact (Hat2 (mkTask "A" "2024-01-01" "Low" false) eq_refl).
Defined.

(** * Further properties of the list *)

(** ** Helper facts *)

Lemma py_index_inside n i :
  (- Z.of_nat n <= i < Z.of_nat n)%Z -> exists k, py_index n i = Some k.
Proof.
  intros Hi. destruct (Z_lt_dec i 0).
  - eexists. apply py_index_negative. lia.
  - eexists. apply py_index_nonneg. lia.
Qed.

Lemma index_cases s i :
  (exists k r, (- len s <= i < len s)%Z /\
               py_index (length (tasks s)) i = Some k /\ tasks s !! k = Some r) \/
  ((len s <= i \/ i < - len s)%Z /\ py_index (length (tasks s)) i = None).
Proof.
  unfold len.
  destruct (Z_le_dec (- Z.of_nat (length (tasks s))) i) as [Hlo|Hlo];
    [destruct (Z_lt_dec i (Z.of_nat (length (tasks s)))) as [Hhi|Hhi]|].
  - left. destruct (py_index_inside _ i (conj Hlo Hhi)) as [k Hk].
    destruct (list_getitem_total s i k Hk) as (r & Hr & _). by exists k, r.
  - right. split; [lia|]. apply py_index_out. lia.
  - right. split; [lia|]. apply py_index_out. lia.
Qed.

Lemma getitem_then_setattr_at s i k r f :
  py_index (length (tasks s)) i = Some k -> tasks s !! k = Some r ->
  (task <- list_getitem i ;; setattr f task) s =
  Ok tt {| heap := alter f r (heap s); tasks := tasks s |}.
Proof. intros Hi Hk. unfold bind. by rewrite (list_getitem_ok s i k r Hi Hk). Qed.

Lemma getitem_then_setattr_out s i f :
  py_index (length (tasks s)) i = None ->
  (task <- list_getitem i ;; setattr f task) s = Raise IndexError s.
Proof. intros Hi. unfold bind. by rewrite (list_getitem_out s i Hi). Qed.

Lemma edit_task_out s i t d p :
  py_index (length (tasks s)) i = None ->
  edit_task i t d p s = Raise IndexError s.
Proof. intros Hi. unfold edit_task, bind. by rewrite (list_getitem_out s i Hi). Qed.

Lemma remove_task_returns s i : exists s', remove_task i s = Ok tt s'.
Proof.
  destruct (Z_lt_dec i 0); [|destruct (Z_lt_dec i (len s))].
  - exists s. apply remove_task_skip. lia.
  - eexists. apply remove_task_at. lia.
  - exists s. apply remove_task_skip. lia.
Qed.

(** An update that keeps an attribute keeps it at every address and
    position. *)
Lemma lookup_alter_keeps {B} (proj : Task -> B) f r (h : list Task) r' :
  (forall x, proj (f x) = proj x) ->
  proj <$> alter f r h !! r' = proj <$> h !! r'.
Proof.
  intros Hf. destruct (decide (r = r')) as [->|Hne].
  - rewrite list_lookup_alter_eq. destruct (h !! r') as [x|]; [|done].
    cbn. by rewrite Hf.
  - by rewrite list_lookup_alter_ne.
Qed.

Lemma task_at_alter_keeps {B} (proj : Task -> B) f r s k :
  (forall x, proj (f x) = proj x) ->
  proj <$> task_at {| heap := alter f r (heap s); tasks := tasks s |} k =
  proj <$> task_at s k.
Proof.
  intros Hf. unfold task_at; cbn [heap tasks].
  destruct (tasks s !! k) as [r'|]; cbn [mbind option_bind]; [|done].
  by apply lookup_alter_keeps.
Qed.

Lemma updated_twice v old : updated v (updated v old) = updated v old.
Proof. unfold updated. destruct v; [|done]. by destruct (truthy _). Qed.

Lemma edited_twice t d p x : edited t d p (edited t d p x) = edited t d p x.
Proof. unfold edited; cbn. by rewrite !updated_twice. Qed.

Lemma edited_falsy t d p x :
  truthy t = false -> truthy d = false -> truthy p = false -> edited t d p x = x.
Proof.
  intros Ht Hd Hp. destruct x as [xt xd xp xc]. unfold edited, updated; cbn.
  rewrite Ht, Hd, Hp. by destruct t, d, p.
Qed.

(** ** Ownership *)

(** X1: whatever calls are made on a new list, and whether or not some of
    them fault, no task object is ever held at two positions and every
    position holds an object that exists. *)
Theorem owned_tasks_invariant cs :
  let s := run cs TodoList_init in
  NoDup (tasks s) /\
  forall k, k < length (tasks s) -> is_Some (task_at s k).
Proof.
  intros s. pose proof (wf_run cs TodoList_init wf_init) as Hwf.
  split; [apply Hwf|]. intros k Hk. by apply task_at_valid.
Qed.

(** ** Faults *)

(** X2: a call faults exactly when it is [edit_task], [mark_completed] or
    [mark_incomplete] with an index [>= length] or [< -length]; [add_task]
    and [remove_task] never fault.  A call that faults has changed
    nothing, and a call that does not fault returns. *)
Theorem faults_exactly_beyond_both_ends c s :
  (faults (exec c s) = true <->
   exists i, indexed c = Some i /\ (len s <= i \/ i < - len s)%Z) /\
  (faults (exec c s) = true -> exec c s = Raise IndexError s) /\
  (faults (exec c s) = false -> exists s', exec c s = Ok tt s').
Proof.
  assert (Hset : forall i f,
    let o := (task <- list_getitem i ;; setattr f task) s in
    (faults o = true <-> (len s <= i \/ i < - len s)%Z) /\
    (faults o = true -> o = Raise IndexError s) /\
    (faults o = false -> exists s', o = Ok tt s')).
  { intros i f o. subst o.
    destruct (index_cases s i) as [(k & r & Hin & Hk & Hr)|[Hout Hnone]].
    - rewrite (getitem_then_setattr_at s i k r f Hk Hr). cbn.
      split; [split; [done|lia]|]. split; [done|]. eauto.
    - rewrite (getitem_then_setattr_out s i f Hnone). cbn.
      split; [done|]. split; done. }
  destruct c as [t d p|i|i t d p|i|i]; cbn [exec indexed].
  - rewrite add_task_run. cbn. split; [split; [done|]|split; [done|eauto]].
    intros (i & Hi & _). discriminate.
  - destruct (remove_task_returns s i) as [s' ->]. cbn.
    split; [split; [done|]|split; [done|eauto]].
    intros (j & Hj & _). discriminate.
  - destruct (index_cases s i) as [(k & r & Hin & Hk & Hr)|[Hout Hnone]].
    + rewrite (edit_task_at s i k r t d p Hk Hr). cbn.
      split; [split; [done|]|split; [done|eauto]].
      intros (j & [= <-] & Hj). lia.
    + rewrite (edit_task_out s i t d p Hnone). cbn.
      split; [split; [eauto|done]|split; done].
  - destruct (Hset i (set_is_completed true)) as (H1 & H2 & H3).
    split; [|split; [exact H2|exact H3]].
    rewrite H1. split; [eauto|]. by intros (j & [= <-] & Hj).
  - destruct (Hset i (set_is_completed false)) as (H1 & H2 & H3).
    split; [|split; [exact H2|exact H3]].
    rewrite H1. split; [eauto|]. by intros (j & [= <-] & Hj).
Qed.

(** ** [edit_task] with nothing to assign *)

(** X3: when all three arguments are [None] or empty, [edit_task] at an
    index within [-length, length) returns and leaves the whole state as
    it was. *)
Theorem edit_task_nothing_to_assign s i t d p :
  truthy t = false -> truthy d = false -> truthy p = false ->
  (- len s <= i < len s)%Z ->
  edit_task i t d p s = Ok tt s.
Proof.
  intros Ht Hd Hp Hi.
  destruct (index_cases s i) as [(k & r & _ & Hk & Hr)|[Hout _]]; [|lia].
  rewrite (edit_task_at s i k r t d p Hk Hr).
  rewrite list_alter_id; [by destruct s|].
  intros x. by apply edited_falsy.
Qed.

Lemma edit_task_nothing_to_assign_witness :
  truthy None = false /\ truthy (Some "") = false /\
  (- len two_tasks <= -2 < len two_tasks)%Z /\
  edit_task (-2) None (Some "") None two_tasks = Ok tt two_tasks.
Proof.
  assert (Hr : (- len two_tasks <= -2 < len two_tasks)%Z)
    by (vm_compute; split; [discriminate|reflexivity]).
  split; [reflexivity|]. split; [reflexivity|]. split; [exact Hr|].
  exact (edit_task_nothing_to_assign two_tasks (-2) None (Some "") None
           eq_refl eq_refl eq_refl Hr).
Defined.

(** ** Repeating and reordering calls *)

(** X4: making the same [edit_task] call twice gives the same outcome and
    the same state as making it once, at any index and in any state. *)
Theorem edit_task_twice s i t d p :
  (edit_task i t d p ;;; edit_task i t d p) s = edit_task i t d p s.
Proof.
  unfold bind at 1.
  destruct (index_cases s i) as [(k & r & _ & Hk & Hr)|[_ Hnone]].
  - rewrite (edit_task_at s i k r t d p Hk Hr). cbv beta iota.
    rewrite (edit_task_at {| heap := _; tasks := tasks s |} i k r t d p Hk Hr).
    cbn [heap tasks]. rewrite list_alter_alter_eq. do 2 f_equal.
    apply list_alter_ext; [|done]. intros x _. apply edited_twice.
  - by rewrite (edit_task_out s i t d p Hnone).
Qed.

(** X5: the last of two marking calls on the same index decides: marking
    twice is marking once, and a mark followed by the opposite mark is the
    opposite mark alone, as outcome and as state. *)
Theorem last_mark_wins s i :
  (mark_completed i ;;; mark_completed i) s = mark_completed i s /\
  (mark_incomplete i ;;; mark_incomplete i) s = mark_incomplete i s /\
  (mark_incomplete i ;;; mark_completed i) s = mark_completed i s /\
  (mark_completed i ;;; mark_incomplete i) s = mark_incomplete i s.
Proof.
  assert (H : forall b1 b2,
    ((task <- list_getitem i ;; setattr (set_is_completed b1) task) ;;;
     (task <- list_getitem i ;; setattr (set_is_completed b2) task)) s =
    (task <- list_getitem i ;; setattr (set_is_completed b2) task) s).
  { intros b1 b2. unfold bind at 1.
    destruct (index_cases s i) as [(k & r & _ & Hk & Hr)|[_ Hnone]].
    - rewrite !(getitem_then_setattr_at s i k r _ Hk Hr). cbv beta iota.
      rewrite (getitem_then_setattr_at {| heap := _; tasks := tasks s |}
                 i k r _ Hk Hr). cbn [heap tasks].
      rewrite list_alter_alter_eq. reflexivity.
    - by rewrite !(getitem_then_setattr_out s i _ Hnone). }
  unfold mark_completed, mark_incomplete. repeat split; apply H.
Qed.

(** X6: when both indices are within [-length, length), [edit_task] on one
    and [mark_completed] or [mark_incomplete] on the other can be called in
    either order: both orders return and reach the same state, also when
    the two indices denote the same task. *)
Theorem edit_and_mark_commute s i j t d p :
  (- len s <= i < len s)%Z -> (- len s <= j < len s)%Z ->
  (exists s', (edit_task i t d p ;;; mark_completed j) s = Ok tt s' /\
              (mark_completed j ;;; edit_task i t d p) s = Ok tt s') /\
  (exists s', (edit_task i t d p ;;; mark_incomplete j) s = Ok tt s' /\
              (mark_incomplete j ;;; edit_task i t d p) s = Ok tt s').
Proof.
  intros Hi Hj.
  destruct (index_cases s i) as [(ki & ri & _ & Hki & Hri)|[Hout _]]; [|lia].
  destruct (index_cases s j) as [(kj & rj & _ & Hkj & Hrj)|[Hout _]]; [|lia].
  assert (H : forall b, exists s',
    (edit_task i t d p ;;;
     (task <- list_getitem j ;; setattr (set_is_completed b) task)) s = Ok tt s' /\
    ((task <- list_getitem j ;; setattr (set_is_completed b) task) ;;;
     edit_task i t d p) s = Ok tt s').
  { intros b. eexists. split.
    - unfold bind at 1. rewrite (edit_task_at s i ki ri t d p Hki Hri).
      cbv beta iota.
      rewrite (getitem_then_setattr_at {| heap := _; tasks := tasks s |}
                 j kj rj _ Hkj Hrj). reflexivity.
    - unfold bind at 1. rewrite (getitem_then_setattr_at s j kj rj _ Hkj Hrj).
      cbv beta iota.
      rewrite (edit_task_at {| heap := _; tasks := tasks s |}
                 i ki ri t d p Hki Hri). cbn [heap tasks].
      do 2 f_equal. destruct (decide (ri = rj)) as [->|Hne].
      + rewrite !list_alter_alter_eq. apply list_alter_ext; [|done].
        by intros [xt xd xp xc] _.
      + by apply list_alter_alter_ne. }
  split; apply H.
Qed.

Lemma edit_and_mark_commute_witness :
  (- len two_tasks <= 0 < len two_tasks)%Z /\
  (- len two_tasks <= -2 < len two_tasks)%Z /\
  exists s',
    (edit_task 0 (Some "C") None None ;;; mark_completed (-2)) two_tasks = Ok tt s' /\
    (mark_completed (-2) ;;; edit_task 0 (Some "C") None None) two_tasks = Ok tt s'.
Proof.
  assert (Hi : (- len two_tasks <= 0 < len two_tasks)%Z)
    by (vm_compute; split; [discriminate|reflexivity]).
  assert (Hj : (- len two_tasks <= -2 < len two_tasks)%Z)
    by (vm_compute; split; [discriminate|reflexivity]).
  split; [exact Hi|]. split; [exact Hj|].
  exact (proj1 (edit_and_mark_commute two_tasks 0 (-2) (Some "C") None None Hi Hj)).
Defined.

(** ** What editing and marking never touch *)

(** X7: at any index and in any state, returning or faulting, [edit_task]
    changes no completion flag, the two marking methods change no title,
    due date or priority, and none of the three changes which objects the
    list holds or their order. *)
Theorem edit_keeps_flags_mark_keeps_texts s i t d p k :
  (let s' := final (edit_task i t d p s) in
   tasks s' = tasks s /\
   is_completed <$> task_at s' k = is_completed <$> task_at s k) /\
  (let s' := final (mark_completed i s) in
   tasks s' = tasks s /\
   title <$> task_at s' k = title <$> task_at s k /\
   due_date <$> task_at s' k = due_date <$> task_at s k /\
   priority <$> task_at s' k = priority <$> task_at s k) /\
  (let s' := final (mark_incomplete i s) in
   tasks s' = tasks s /\
   title <$> task_at s' k = title <$> task_at s k /\
   due_date <$> task_at s' k = due_date <$> task_at s k /\
   priority <$> task_at s' k = priority <$> task_at s k).
Proof.
  assert (Hm : forall b,
    let s' := final ((task <- list_getitem i ;;
                      setattr (set_is_completed b) task) s) in
    tasks s' = tasks s /\
    title <$> task_at s' k = title <$> task_at s k /\
    due_date <$> task_at s' k = due_date <$> task_at s k /\
    priority <$> task_at s' k = priority <$> task_at s k).
  { intros b.
    destruct (index_cases s i) as [(ki & r & _ & Hk & Hr)|[_ Hnone]].
    - rewrite (getitem_then_setattr_at s i ki r _ Hk Hr). cbn [final].
      repeat split; by apply task_at_alter_keeps.
    - rewrite (getitem_then_setattr_out s i _ Hnone). by cbn. }
  split; [|split; apply Hm].
  destruct (index_cases s i) as [(ki & r & _ & Hk & Hr)|[_ Hnone]].
  - rewrite (edit_task_at s i ki r t d p Hk Hr). cbn [final].
    split; [done|]. by apply task_at_alter_keeps.
  - rewrite (edit_task_out s i t d p Hnone). by cbn.
Qed.

(** ** Adding and removing *)

(** X8: adding a task and then removing the position it was given (the old
    length) returns and gives back the list as it was: the same task
    objects at the same positions, each with the attribute values it
    had. *)
Theorem add_then_remove_last s t d p :
  wf s ->
  exists s',
    (add_task t d p ;;; remove_task (len s)) s = Ok tt s' /\
    tasks s' = tasks s /\
    forall k, task_at s' k = task_at s k.
Proof.
  intros [_ Hb]. unfold bind. rewrite add_task_run.
  set (s1 := {| heap := heap s ++ [mkTask t d p false];
                tasks := tasks s ++ [length (heap s)] |}).
  assert (Hi : (0 <= len s < len s1)%Z).
  { unfold len, s1; cbn [tasks]. rewrite length_app; cbn [length]. lia. }
  eexists. split; [exact (remove_task_at s1 (len s) Hi)|].
  assert (Ht : delete (Z.to_nat (len s)) (tasks s1) = tasks s).
  { unfold len, s1; cbn [tasks]. rewrite Nat2Z.id.
    rewrite delete_middle. apply app_nil_r. }
  cbn [heap tasks]. split; [exact Ht|].
  intros k. unfold task_at; cbn [heap tasks]. rewrite Ht.
  destruct (tasks s !! k) as [r|] eqn:Hr; cbn [mbind option_bind]; [|done].
  unfold s1; cbn [heap]. apply lookup_app_l.
  by apply (proj1 (Forall_lookup _ _) Hb k r).
Qed.

Lemma add_then_remove_last_witness :
  wf two_tasks /\
  exists s',
    (add_task "C" "2024-01-03" "Low" ;;; remove_task (len two_tasks)) two_tasks
      = Ok tt s' /\
    tasks s' = tasks two_tasks /\
    forall k, task_at s' k = task_at two_tasks k.
Proof.
  split; [exact wf_two_tasks|].
  exact (add_then_remove_last two_tasks "C" "2024-01-03" "Low" wf_two_tasks).
Defined.

(** X9: in a list that owns its tasks, [remove_task] at a valid index lets
    go of the object that was there and of no other: that object is at no
    position afterwards, and every other object of the list still is. *)
Theorem remove_task_lets_go_of_one_object s i r :
  wf s -> (0 <= i < len s)%Z -> tasks s !! Z.to_nat i = Some r ->
  exists s',
    remove_task i s = Ok tt s' /\
    (r ∉ tasks s') /\
    forall r', r' <> r -> r' ∈ tasks s -> r' ∈ tasks s'.
Proof.
  intros [Hnd _] Hi Hr. eexists. split; [exact (remove_task_at s i Hi)|].
  cbn [tasks]. rewrite delete_take_drop.
  pose proof (take_drop_middle (tasks s) (Z.to_nat i) r Hr) as Hsplit.
  rewrite <- Hsplit in Hnd. apply NoDup_app in Hnd as (_ & Hdisj & Hnd2).
  apply NoDup_cons in Hnd2 as [Hnotin _].
  split.
  - intros Hin. apply elem_of_app in Hin as [Hin|Hin]; [|done].
    apply (Hdisj r Hin). apply list_elem_of_here.
  - intros r' Hne Hin. rewrite <- Hsplit in Hin.
    apply elem_of_app in Hin as [Hin|Hin]; apply elem_of_app; [by left|].
    apply elem_of_cons in Hin as [->|Hin]; [done|by right].
Qed.

Lemma remove_task_lets_go_of_one_object_witness :
  wf two_tasks /\ (0 <= 0 < len two_tasks)%Z /\
  tasks two_tasks !! Z.to_nat 0 = Some 0 /\
  exists s',
    remove_task 0 two_tasks = Ok tt s' /\
    (0 ∉ tasks s') /\
    forall r', r' <> 0 -> r' ∈ tasks two_tasks -> r' ∈ tasks s'.
Proof.
  assert (Hi : (0 <= 0 < len two_tasks)%Z)
    by (vm_compute; split; [discriminate|reflexivity]).
  split; [exact wf_two_tasks|]. split; [exact Hi|]. split; [reflexivity|].
  exact (remove_task_lets_go_of_one_object two_tasks 0 0 wf_two_tasks Hi eq_refl).
Defined.

(** ** [show_tasks] *)

Lemma show_tasks_loop_lines s rs :
  Forall (fun r => r < length (heap s)) rs ->
  forall i,
    length (show_tasks_loop s i rs) = length rs /\
    forall k, show_tasks_loop s i rs !! k =
              (fun x => str_of_nat (i + k) ++ ". " ++ Task_str x)
                <$> (rs !! k ≫= fun r => heap s !! r).
Proof.
  induction 1 as [|r rs Hr _ IH]; intros i; [by split|].
  destruct (lookup_lt_is_Some_2 (heap s) r Hr) as [x Hx].
  cbn [show_tasks_loop]. rewrite Hx. destruct (IH (S i)) as [Hlen Hline].
  split; [cbn [length]; by rewrite Hlen|].
  intros [|k]; cbn [lookup list_lookup].
  - cbn [mbind option_bind]. rewrite Hx. cbn. by rewrite Nat.add_0_r.
  - rewrite Hline. by replace (S i + k) with (i + S k) by lia.
Qed.

(** X10: on a list that owns its tasks, [show_tasks] prints one line per
    task, in list order; line [k] is the decimal number [k], a dot, a
    space, and the rendering of the task at position [k]; nothing is
    printed for an empty list. *)
Theorem show_tasks_prints_numbered_lines s :
  wf s ->
  length (show_tasks s) = length (tasks s) /\
  (forall k,
     show_tasks s !! k =
     (fun x => str_of_nat k ++ ". " ++ Task_str x) <$> task_at s k) /\
  (tasks s = [] -> show_tasks s = []).
Proof.
  intros [_ Hb].
  destruct (show_tasks_loop_lines s (tasks s) Hb 0) as [Hlen Hline].
  split; [exact Hlen|]. split; [exact Hline|].
  intros He. unfold show_tasks. by rewrite He.
Qed.

Lemma show_tasks_prints_numbered_lines_witness :
  wf two_tasks /\
  length (show_tasks two_tasks) = length (tasks two_tasks) /\
  show_tasks two_tasks !! 1 = Some "1. B - 2024-01-02 - High - Not Completed".
Proof.
  split; [exact wf_two_tasks|].
  destruct (show_tasks_prints_numbered_lines two_tasks wf_two_tasks)
    as (Hlen & Hline & _).
  split; [exact Hlen|]. exact (Hline 1).
Defined.

(** * The window *)

(** ** What each handler computes *)

Lemma renderings_lines s :
  Forall (fun r => r < length (heap s)) (tasks s) ->
  length (renderings s) = length (tasks s) /\
  forall k, renderings s !! k = Task_str <$> task_at s k.
Proof.
  unfold renderings, task_at. generalize (tasks s) as rs.
  induction 1 as [|r rs Hr _ [IHlen IHline]]; [by split|].
  destruct (lookup_lt_is_Some_2 (heap s) r Hr) as [x Hx].
  cbn [omap list_omap]. rewrite Hx. cbn [fmap option_fmap option_map].
  split; [cbn [length]; by rewrite IHlen|].
  intros [|k]; cbn [lookup list_lookup]; [|apply IHline].
  cbn [mbind option_bind]. by rewrite Hx.
Qed.

Lemma for_each_insert_run rs : forall w,
  for_each rs listbox_insert_end w =
  Returns tt
    (mkTodoApp (todo_list w) (title_entry w) (due_date_entry w) (priority_entry w)
       (mkListbox (items (task_listbox w)
                   ++ omap (fun r => Task_str <$> heap (todo_list w) !! r) rs)
                  (curselection (task_listbox w)))
       (warnings w)).
Proof.
  induction rs as [|r rs IH]; intros w; cbn [for_each omap list_omap].
  - unfold gret. rewrite app_nil_r. by destruct w as [? ? ? ? [? ?] ?].
  - unfold gbind, listbox_insert_end.
    destruct (heap (todo_list w) !! r) as [x|];
      cbn [fmap option_fmap option_map]; rewrite IH; cbn; [|done].
    by rewrite <- app_assoc.
Qed.

Lemma update_task_listbox_run w :
  update_task_listbox w =
  Returns tt
    (mkTodoApp (todo_list w) (title_entry w) (due_date_entry w) (priority_entry w)
       (mkListbox (renderings (todo_list w)) []) (warnings w)).
Proof.
  unfold update_task_listbox, gbind, listbox_delete_all.
  by rewrite for_each_insert_run.
Qed.

Lemma not_str_true s : not_str s = true <-> s = "".
Proof. unfold not_str. by destruct (String.eqb_spec s ""). Qed.

Lemma not_str_false s : not_str s = false <-> s <> "".
Proof. unfold not_str. by destruct (String.eqb_spec s ""). Qed.

Lemma add_handler_rejects_run w :
  title_entry w = "" \/ due_date_entry w = "" \/ priority_entry w = "" ->
  TodoApp_add_task w =
  Returns tt
    (mkTodoApp (todo_list w) (title_entry w) (due_date_entry w) (priority_entry w)
       (task_listbox w)
       (warnings w ++ [("入力エラー", "すべてのフィールドを入力してください")])).
Proof.
  intros H. unfold TodoApp_add_task, gbind, entry_get.
  assert (Hb : (not_str (title_entry w) || not_str (due_date_entry w)
                || not_str (priority_entry w))%bool = true).
  { destruct H as [H|[H|H]]; apply not_str_true in H; rewrite H;
      by rewrite ?orb_true_r. }
  by rewrite Hb.
Qed.

Lemma add_handler_accepts_run w :
  title_entry w <> "" -> due_date_entry w <> "" -> priority_entry w <> "" ->
  let s' := {| heap := heap (todo_list w)
                       ++ [mkTask (title_entry w) (due_date_entry w)
                                  (priority_entry w) false];
               tasks := tasks (todo_list w) ++ [length (heap (todo_list w))] |} in
  TodoApp_add_task w =
  Returns tt (mkTodoApp s' "" "" "" (mkListbox (renderings s') []) (warnings w)).
Proof.
  intros Ht Hd Hp s'. unfold TodoApp_add_task, gbind at 1 2 3, entry_get.
  apply not_str_false in Ht, Hd, Hp. rewrite Ht, Hd, Hp. cbn [orb].
  unfold gbind at 1, on_todo_list. rewrite add_task_run. fold s'.
  unfold gbind at 1. rewrite update_task_listbox_run. reflexivity.
Qed.

Lemma handler_nothing_selected (act : nat -> M unit) title message w :
  curselection (task_listbox w) = [] ->
  try_except_IndexError
    (selected_task_index <- curselection_first ;;
     on_todo_list (act selected_task_index) ;;;
     update_task_listbox)%gui
    (showwarning title message) w =
  Returns tt
    (mkTodoApp (todo_list w) (title_entry w) (due_date_entry w) (priority_entry w)
       (task_listbox w) (warnings w ++ [(title, message)])).
Proof.
  intros Hsel. unfold try_except_IndexError, gbind at 1, curselection_first.
  by rewrite Hsel.
Qed.

Lemma handler_selected_returns (act : nat -> M unit) title message w k rest s' :
  curselection (task_listbox w) = k :: rest ->
  act k (todo_list w) = Ok tt s' ->
  try_except_IndexError
    (selected_task_index <- curselection_first ;;
     on_todo_list (act selected_task_index) ;;;
     update_task_listbox)%gui
    (showwarning title message) w =
  Returns tt
    (mkTodoApp s' (title_entry w) (due_date_entry w) (priority_entry w)
       (mkListbox (renderings s') []) (warnings w)).
Proof.
  intros Hsel Hact. unfold try_except_IndexError, gbind at 1, curselection_first.
  rewrite Hsel. unfold gbind at 1, on_todo_list. rewrite Hact.
  by rewrite update_task_listbox_run.
Qed.

Lemma handler_selected_raises (act : nat -> M unit) title message w k rest :
  curselection (task_listbox w) = k :: rest ->
  act k (todo_list w) = Raise IndexError (todo_list w) ->
  try_except_IndexError
    (selected_task_index <- curselection_first ;;
     on_todo_list (act selected_task_index) ;;;
     update_task_listbox)%gui
    (showwarning title message) w =
  Returns tt
    (mkTodoApp (todo_list w) (title_entry w) (due_date_entry w) (priority_entry w)
       (task_listbox w) (warnings w ++ [(title, message)])).
Proof.
  intros Hsel Hact. unfold try_except_IndexError, gbind at 1, curselection_first.
  rewrite Hsel. unfold gbind at 1, on_todo_list. by rewrite Hact.
Qed.

Lemma py_index_of_nat n k : k < n -> py_index n (Z.of_nat k) = Some k.
Proof.
  intros Hk. rewrite py_index_nonneg by lia. by rewrite Nat2Z.id.
Qed.

Lemma shows_renderings s t d p l ws :
  wf s -> shows_tasks (mkTodoApp s t d p (mkListbox (renderings s) l) ws).
Proof. intros [_ Hb]. by apply renderings_lines. Qed.

(** ** [update_task_listbox] *)

(** X11: whatever the list box showed before, after [update_task_listbox]
    it shows exactly the tasks of a list that owns its tasks, one line per
    task in list order, and no line is selected; the list, the three
    fields and the warnings shown are untouched. *)
Theorem update_task_listbox_shows_the_list w :
  wf (todo_list w) ->
  exists w',
    update_task_listbox w = Returns tt w' /\
    shows_tasks w' /\
    curselection (task_listbox w') = [] /\
    todo_list w' = todo_list w /\
    title_entry w' = title_entry w /\
    due_date_entry w' = due_date_entry w /\
    priority_entry w' = priority_entry w /\
    warnings w' = warnings w.
Proof.
  intros Hwf. eexists. split; [apply update_task_listbox_run|].
  split; [by apply shows_renderings|]. by repeat split.
Qed.

Lemma update_task_listbox_shows_the_list_witness :
  wf (todo_list window_two_tasks) /\
  exists w',
    update_task_listbox window_two_tasks = Returns tt w' /\
    shows_tasks w' /\
    curselection (task_listbox w') = [].
Proof.
  split; [exact wf_two_tasks|].
  destruct (update_task_listbox_shows_the_list window_two_tasks wf_two_tasks)
    as (w' & Hrun & Hshow & Hsel & _).
  exists w'. split; [exact Hrun|]. split; [exact Hshow|exact Hsel].
Defined.

(** ** The three handlers *)

(** X12: none of the three handlers lets an exception escape: in every
    window state each of them returns. *)
Theorem handlers_always_return w :
  (exists w', TodoApp_add_task w = Returns tt w') /\
  (exists w', TodoApp_remove_task w = Returns tt w') /\
  (exists w', TodoApp_mark_completed w = Returns tt w').
Proof.
  split; [|split].
  - destruct (string_dec (title_entry w) "") as [Ht|Ht];
      [|destruct (string_dec (due_date_entry w) "") as [Hd|Hd];
        [|destruct (string_dec (priority_entry w) "") as [Hp|Hp]]].
    + eexists. apply add_handler_rejects_run. by left.
    + eexists. apply add_handler_rejects_run. right. by left.
    + eexists. apply add_handler_rejects_run. right. by right.
    + eexists. by apply add_handler_accepts_run.
  - unfold TodoApp_remove_task.
    destruct (curselection (task_listbox w)) as [|k rest] eqn:Hsel.
    + eexists. by apply handler_nothing_selected.
    + destruct (remove_task_returns (todo_list w) (Z.of_nat k)) as [s' Hs'].
      eexists.
      by apply (handler_selected_returns (fun i => remove_task (Z.of_nat i))
                  _ _ w k rest s').
  - unfold TodoApp_mark_completed.
    destruct (curselection (task_listbox w)) as [|k rest] eqn:Hsel.
    + eexists. by apply handler_nothing_selected.
    + destruct (index_cases (todo_list w) (Z.of_nat k))
        as [(k' & r & _ & Hk & Hr)|[_ Hnone]].
      * eexists.
        eapply (handler_selected_returns (fun i => mark_completed (Z.of_nat i)));
          [exact Hsel|].
        exact (mark_completed_at _ _ k' r Hk Hr).
      * eexists.
        apply (handler_selected_raises (fun i => mark_completed (Z.of_nat i))
                 _ _ w k rest Hsel).
        exact (getitem_then_setattr_out _ _ _ Hnone).
Qed.

(** X13: when one of the three fields is empty, [TodoApp.add_task] shows
    the input warning and does nothing else: no task is added, the fields
    keep their text, the list box is as it was. *)
Theorem TodoApp_add_task_rejects_empty_field w :
  title_entry w = "" \/ due_date_entry w = "" \/ priority_entry w = "" ->
  exists w',
    TodoApp_add_task w = Returns tt w' /\
    todo_list w' = todo_list w /\
    title_entry w' = title_entry w /\
    due_date_entry w' = due_date_entry w /\
    priority_entry w' = priority_entry w /\
    task_listbox w' = task_listbox w /\
    warnings w' =
      (warnings w ++ [("入力エラー", "すべてのフィールドを入力してください")])%list.
Proof.
  intros H. eexists. split; [by apply add_handler_rejects_run|]. by repeat split.
Qed.

Lemma TodoApp_add_task_rejects_empty_field_witness :
  (title_entry window_two_tasks = "" \/ due_date_entry window_two_tasks = "" \/
   priority_entry window_two_tasks = "") /\
  exists w',
    TodoApp_add_task window_two_tasks = Returns tt w' /\
    todo_list w' = todo_list window_two_tasks.
Proof.
  split; [left; reflexivity|].
  destruct (TodoApp_add_task_rejects_empty_field window_two_tasks
              (or_introl eq_refl)) as (w' & Hrun & Hl & _).
  exists w'. split; [exact Hrun|exact Hl].
Defined.

(** X14: when all three fields are filled in, [TodoApp.add_task] appends a
    task with the texts of the fields to a list that owns its tasks; the
    list box then shows all tasks, its last line being the new task as not
    completed; the three fields are emptied, nothing is selected and no
    warning is shown. *)
Theorem TodoApp_add_task_accepts_filled_fields w :
  title_entry w <> "" -> due_date_entry w <> "" -> priority_entry w <> "" ->
  wf (todo_list w) ->
  exists w',
    TodoApp_add_task w = Returns tt w' /\
    add_task (title_entry w) (due_date_entry w) (priority_entry w) (todo_list w)
      = Ok tt (todo_list w') /\
    wf (todo_list w') /\
    shows_tasks w' /\
    items (task_listbox w') !! length (tasks (todo_list w)) =
      Some (title_entry w ++ " - " ++ due_date_entry w ++ " - "
            ++ priority_entry w ++ " - Not Completed") /\
    curselection (task_listbox w') = [] /\
    title_entry w' = "" /\ due_date_entry w' = "" /\ priority_entry w' = "" /\
    warnings w' = warnings w.
Proof.
  intros Ht Hd Hp Hwf. eexists.
  split; [by apply add_handler_accepts_run|].
  cbn [todo_list task_listbox items curselection title_entry due_date_entry
       priority_entry warnings].
  split; [apply add_task_run|].
  assert (Hwf' := wf_append (todo_list w)
                    (mkTask (title_entry w) (due_date_entry w)
                            (priority_entry w) false) Hwf).
  split; [exact Hwf'|]. split; [by apply shows_renderings|].
  split; [|by repeat split].
  destruct (renderings_lines _ (proj2 Hwf')) as [_ Hline]. rewrite Hline.
  unfold task_at; cbn [heap tasks].
  rewrite list_lookup_middle by done. cbn [mbind option_bind].
  by rewrite list_lookup_middle.
Qed.

Lemma TodoApp_add_task_accepts_filled_fields_witness :
  let w := mkTodoApp two_tasks "C" "2024-01-03" "Low"
                     (task_listbox window_two_tasks) [] in
  title_entry w <> "" /\ due_date_entry w <> "" /\ priority_entry w <> "" /\
  wf (todo_list w) /\
  exists w',
    TodoApp_add_task w = Returns tt w' /\
    items (task_listbox w') !! length (tasks (todo_list w)) =
      Some "C - 2024-01-03 - Low - Not Completed".
Proof.
  intros w.
  assert (Ht : title_entry w <> "") by discriminate.
  assert (Hd : due_date_entry w <> "") by discriminate.
  assert (Hp : priority_entry w <> "") by discriminate.
  split; [exact Ht|]. split; [exact Hd|]. split; [exact Hp|].
  split; [exact wf_two_tasks|].
  destruct (TodoApp_add_task_accepts_filled_fields w Ht Hd Hp wf_two_tasks)
    as (w' & Hrun & _ & _ & _ & Hlast & _).
  exists w'. split; [exact Hrun|exact Hlast].
Defined.

(** X15: with no line selected, [TodoApp.remove_task] and
    [TodoApp.mark_completed] only show their selection warning: the list,
    the fields and the list box are as they were. *)
Theorem handlers_warn_when_nothing_selected w :
  curselection (task_listbox w) = [] ->
  TodoApp_remove_task w =
    Returns tt
      (mkTodoApp (todo_list w) (title_entry w) (due_date_entry w)
         (priority_entry w) (task_listbox w)
         (warnings w ++ [("選択エラー", "削除するタスクを選択してください")])) /\
  TodoApp_mark_completed w =
    Returns tt
      (mkTodoApp (todo_list w) (title_entry w) (due_date_entry w)
         (priority_entry w) (task_listbox w)
         (warnings w ++ [("選択エラー", "完了するタスクを選択してください")])).
Proof.
  intros Hsel. split; by apply handler_nothing_selected.
Qed.

Lemma handlers_warn_when_nothing_selected_witness :
  curselection (task_listbox TodoApp_init) = [] /\
  TodoApp_remove_task TodoApp_init =
    Returns tt
      (mkTodoApp TodoList_init "" "" "" (mkListbox [] [])
         [("選択エラー", "削除するタスクを選択してください")]).
Proof.
  split; [reflexivity|].
  exact (proj1 (handlers_warn_when_nothing_selected TodoApp_init eq_refl)).
Defined.

(** X16: with a line selected, [TodoApp.remove_task] calls [remove_task]
    with the first selected position on a list that owns its tasks, shows
    the list that results, clears the selection and shows no warning; when
    the position is a position of the list, the list is one shorter. *)
Theorem TodoApp_remove_task_removes_selected w k rest :
  curselection (task_listbox w) = k :: rest -> wf (todo_list w) ->
  exists w',
    TodoApp_remove_task w = Returns tt w' /\
    remove_task (Z.of_nat k) (todo_list w) = Ok tt (todo_list w') /\
    (len (todo_list w') =
       if decide (k < length (tasks (todo_list w)))%nat
       then len (todo_list w) - 1 else len (todo_list w))%Z /\
    wf (todo_list w') /\
    shows_tasks w' /\
    curselection (task_listbox w') = [] /\
    warnings w' = warnings w.
Proof.
  intros Hsel Hwf. unfold TodoApp_remove_task.
  assert (Hcase : exists s',
    remove_task (Z.of_nat k) (todo_list w) = Ok tt s' /\ wf s' /\
    (len s' = if decide (k < length (tasks (todo_list w)))%nat
              then len (todo_list w) - 1 else len (todo_list w))%Z).
  { case_decide as Hk.
    - eexists. split; [apply remove_task_at; unfold len; lia|].
      split; [by apply wf_delete|]. unfold len; cbn [tasks].
      rewrite length_delete; [lia|]. apply lookup_lt_is_Some_2. lia.
    - exists (todo_list w). split; [apply remove_task_skip; unfold len; lia|].
      by split. }
  destruct Hcase as (s' & Hrun & Hwf' & Hlen).
  eexists. split.
  { by apply (handler_selected_returns (fun i => remove_task (Z.of_nat i))
                _ _ w k rest s'). }
  cbn [todo_list task_listbox curselection warnings].
  split; [exact Hrun|]. split; [exact Hlen|]. split; [exact Hwf'|].
  split; [by apply shows_renderings|]. by split.
Qed.

Lemma TodoApp_remove_task_removes_selected_witness :
  curselection (task_listbox window_two_tasks) = [1] /\
  wf (todo_list window_two_tasks) /\
  exists w',
    TodoApp_remove_task window_two_tasks = Returns tt w' /\
    len (todo_list w') = 1%Z /\
    shows_tasks w'.
Proof.
  split; [reflexivity|]. split; [exact wf_two_tasks|].
  destruct (TodoApp_remove_task_removes_selected window_two_tasks 1 []
              eq_refl wf_two_tasks) as (w' & Hrun & _ & Hlen & _ & Hshow & _).
  exists w'. split; [exact Hrun|]. split; [exact Hlen|exact Hshow].
Defined.

(** X17: with a line selected whose position is a position of a list that
    owns its tasks, [TodoApp.mark_completed] marks that task completed and
    changes no other, shows the list again, with that line now ending in
    ["Completed"], clears the selection and shows no warning. *)
Theorem TodoApp_mark_completed_marks_selected w k rest :
  curselection (task_listbox w) = k :: rest ->
  k < length (tasks (todo_list w)) -> wf (todo_list w) ->
  exists w' x,
    TodoApp_mark_completed w = Returns tt w' /\
    mark_completed (Z.of_nat k) (todo_list w) = Ok tt (todo_list w') /\
    task_at (todo_list w) k = Some x /\
    task_at (todo_list w') k =
      Some (mkTask (title x) (due_date x) (priority x) true) /\
    (forall j, j <> k -> task_at (todo_list w') j = task_at (todo_list w) j) /\
    wf (todo_list w') /\
    shows_tasks w' /\
    items (task_listbox w') !! k =
      Some (title x ++ " - " ++ due_date x ++ " - " ++ priority x
            ++ " - Completed") /\
    curselection (task_listbox w') = [] /\
    warnings w' = warnings w.
Proof.
  intros Hsel Hk Hwf. unfold TodoApp_mark_completed.
  pose proof (py_index_of_nat _ k Hk) as Hpi.
  destruct (list_getitem_total (todo_list w) _ k Hpi) as (r & Hr & _).
  destruct (task_at_valid (todo_list w) k Hwf Hk) as [x Hx].
  pose proof (mark_completed_at (todo_list w) _ k r Hpi Hr) as Hrun.
  eexists. exists x. split.
  { eapply (handler_selected_returns (fun i => mark_completed (Z.of_nat i)));
      [exact Hsel|exact Hrun]. }
  cbn [todo_list task_listbox items curselection warnings].
  assert (Hat : task_at {| heap := alter (set_is_completed true) r
                                     (heap (todo_list w));
                           tasks := tasks (todo_list w) |} k
                = Some (mkTask (title x) (due_date x) (priority x) true)).
  { rewrite task_at_alter_same by done. by rewrite Hx. }
  assert (Hwf' := wf_alter (todo_list w) (set_is_completed true) r Hwf).
  split; [exact Hrun|]. split; [exact Hx|]. split; [exact Hat|].
  split.
  { intros j Hj. apply task_at_alter_other with k; [apply Hwf|done..]. }
  split; [exact Hwf'|]. split; [by apply shows_renderings|].
  split; [|by split].
  destruct (renderings_lines _ (proj2 Hwf')) as [_ Hline].
  rewrite Hline, Hat. reflexivity.
Qed.

Lemma TodoApp_mark_completed_marks_selected_witness :
  curselection (task_listbox window_two_tasks) = [1] /\
  1 < length (tasks (todo_list window_two_tasks)) /\
  wf (todo_list window_two_tasks) /\
  exists w',
    TodoApp_mark_completed window_two_tasks = Returns tt w' /\
    items (task_listbox w') !! 1 = Some "B - 2024-01-02 - High - Completed".
Proof.
  assert (Hk : 1 < length (tasks (todo_list window_two_tasks)))
    by (vm_compute; lia).
  split; [reflexivity|]. split; [exact Hk|]. split; [exact wf_two_tasks|].
  destruct (TodoApp_mark_completed_marks_selected window_two_tasks 1 []
              eq_refl Hk wf_two_tasks)
    as (w' & x & Hrun & _ & Hx & _ & _ & _ & _ & Hline & _).
  exists w'. split; [exact Hrun|].
  injection Hx as <-. exact Hline.
Defined.

(** X18: when the first selected position is not a position of the list,
    the [IndexError] of [mark_completed] is caught by the handler's own
    [except]: [TodoApp.mark_completed] shows the selection warning, marks
    nothing and does not refresh the list box. *)
Theorem TodoApp_mark_completed_stale_selection w k rest :
  curselection (task_listbox w) = k :: rest ->
  length (tasks (todo_list w)) <= k ->
  TodoApp_mark_completed w =
    Returns tt
      (mkTodoApp (todo_list w) (title_entry w) (due_date_entry w)
         (priority_entry w) (task_listbox w)
         (warnings w ++ [("選択エラー", "完了するタスクを選択してください")])).
Proof.
  intros Hsel Hk. unfold TodoApp_mark_completed.
  apply (handler_selected_raises (fun i => mark_completed (Z.of_nat i))
           _ _ w k rest Hsel).
  apply getitem_then_setattr_out, py_index_out. lia.
Qed.

Lemma TodoApp_mark_completed_stale_selection_witness :
  let w := mkTodoApp one_task "" "" "" (task_listbox window_two_tasks) [] in
  curselection (task_listbox w) = [1] /\
  length (tasks (todo_list w)) <= 1 /\
  TodoApp_mark_completed w =
    Returns tt
      (mkTodoApp one_task "" "" "" (task_listbox window_two_tasks)
         [("選択エラー", "完了するタスクを選択してください")]).
Proof.
  intros w.
  assert (Hk : length (tasks (todo_list w)) <= 1) by (vm_compute; lia).
  split; [reflexivity|]. split; [exact Hk|].
  exact (TodoApp_mark_completed_stale_selection w 1 [] eq_refl Hk).
Defined.

(** ** Sessions *)

Lemma fields_nonempty_alter s f r :
  (forall x, title (f x) = title x) ->
  (forall x, due_date (f x) = due_date x) ->
  (forall x, priority (f x) = priority x) ->
  fields_nonempty s ->
  fields_nonempty {| heap := alter f r (heap s); tasks := tasks s |}.
Proof.
  intros Ht Hd Hp Hne k x' Hx'.
  pose proof (task_at_alter_keeps title f r s k Ht) as H1.
  pose proof (task_at_alter_keeps due_date f r s k Hd) as H2.
  pose proof (task_at_alter_keeps priority f r s k Hp) as H3.
  rewrite Hx' in H1, H2, H3.
  destruct (task_at s k) as [x|] eqn:Hx; [|discriminate].
  cbn in H1, H2, H3. injection H1 as H1. injection H2 as H2. injection H3 as H3.
  rewrite H1, H2, H3. by apply (Hne k).
Qed.

Lemma fields_nonempty_delete s i :
  fields_nonempty s ->
  fields_nonempty {| heap := heap s; tasks := delete i (tasks s) |}.
Proof.
  intros Hne k x. unfold task_at; cbn [heap tasks].
  rewrite list_lookup_delete. apply Hne.
Qed.

Lemma fields_nonempty_append s t d p :
  wf s -> t <> "" -> d <> "" -> p <> "" -> fields_nonempty s ->
  fields_nonempty {| heap := heap s ++ [mkTask t d p false];
                     tasks := tasks s ++ [length (heap s)] |}.
Proof.
  intros [_ Hb] Ht Hd Hp Hne k x. unfold task_at; cbn [heap tasks].
  destruct (decide (k < length (tasks s))) as [Hk|Hk].
  - rewrite lookup_app_l by done.
    destruct (tasks s !! k) as [r|] eqn:Hr; cbn [mbind option_bind]; [|done].
    rewrite lookup_app_l by (by apply (proj1 (Forall_lookup _ _) Hb k r)).
    intros Hx. apply (Hne k). unfold task_at. by rewrite Hr.
  - destruct (decide (k = length (tasks s))) as [->|Hk'].
    + rewrite list_lookup_middle by done. cbn [mbind option_bind].
      rewrite list_lookup_middle by done. by intros [= <-].
    + rewrite lookup_ge_None_2; [done|]. rewrite length_app; cbn [length]. lia.
Qed.

Lemma perform_keeps_window_ok a w : window_ok w -> window_ok (perform a w).
Proof.
  intros (Hwf & Hshow & Hsel & Hne).
  assert (Hsame : forall w',
    todo_list w' = todo_list w -> task_listbox w' = task_listbox w ->
    window_ok w').
  { intros w' Hl Hb. unfold window_ok, shows_tasks, selection_valid.
    rewrite Hl, Hb. exact (conj Hwf (conj Hshow (conj Hsel Hne))). }
  destruct a as [text|text|text|k| | |]; cbn [perform];
    [by apply Hsame..| | | |].
  - case_decide as Hk; [|by apply Hsame].
    split; [done|]. split; [done|]. split; [|done].
    unfold selection_valid; cbn. by apply Forall_singleton.
  - destruct (string_dec (title_entry w) "") as [Ht|Ht];
      [|destruct (string_dec (due_date_entry w) "") as [Hd|Hd];
        [|destruct (string_dec (priority_entry w) "") as [Hp|Hp]]].
    + rewrite add_handler_rejects_run by (by left). by apply Hsame.
    + rewrite add_handler_rejects_run by (right; by left). by apply Hsame.
    + rewrite add_handler_rejects_run by (right; by right). by apply Hsame.
    + rewrite (add_handler_accepts_run w Ht Hd Hp). cbn [gfinal].
      pose proof (wf_append (todo_list w)
                    (mkTask (title_entry w) (due_date_entry w)
                            (priority_entry w) false) Hwf) as Hwf'.
      split; [exact Hwf'|]. split; [by apply shows_renderings|].
      split; [apply Forall_nil_2|]. by apply fields_nonempty_append.
  - unfold TodoApp_mark_completed.
    destruct (curselection (task_listbox w)) as [|k rest] eqn:Hcur.
    + rewrite handler_nothing_selected by done. by apply Hsame.
    + assert (Hk : k < length (tasks (todo_list w))).
      { unfold selection_valid in Hsel. rewrite Hcur in Hsel.
        apply Forall_cons in Hsel as [Hk _]. by rewrite <- (proj1 Hshow). }
      pose proof (py_index_of_nat _ k Hk) as Hpi.
      destruct (list_getitem_total (todo_list w) _ k Hpi) as (r & Hr & _).
      rewrite (handler_selected_returns (fun i => mark_completed (Z.of_nat i))
                 _ _ w k rest _ Hcur (mark_completed_at _ _ k r Hpi Hr)).
      cbn [gfinal].
      split; [by apply wf_alter|].
      split; [apply shows_renderings; by apply wf_alter|].
      split; [apply Forall_nil_2|]. by apply fields_nonempty_alter.
  - unfold TodoApp_remove_task.
    destruct (curselection (task_listbox w)) as [|k rest] eqn:Hcur.
    + rewrite handler_nothing_selected by done. by apply Hsame.
    + assert (Hk : k < length (tasks (todo_list w))).
      { unfold selection_valid in Hsel. rewrite Hcur in Hsel.
        apply Forall_cons in Hsel as [Hk _]. by rewrite <- (proj1 Hshow). }
      assert (Hrun := remove_task_at (todo_list w) (Z.of_nat k)
                        ltac:(unfold len; lia)).
      rewrite (handler_selected_returns (fun i => remove_task (Z.of_nat i))
                 _ _ w k rest _ Hcur Hrun).
      cbn [gfinal].
      split; [by apply wf_delete|].
      split; [apply shows_renderings; by apply wf_delete|].
      split; [apply Forall_nil_2|]. by apply fields_nonempty_delete.
Qed.

Lemma window_ok_init : window_ok TodoApp_init.
Proof.
  split; [exact wf_init|]. split; [|split].
  - split; [reflexivity|]. by intros [|k].
  - apply Forall_nil_2.
  - intros k x Hx. unfold task_at in Hx. cbn in Hx. by destruct k.
Qed.

Lemma continue_keeps_window_ok acts : forall w,
  window_ok w -> window_ok (continue acts w).
Proof.
  unfold continue. induction acts as [|a acts IH]; intros w Hok; [done|].
  cbn [foldl]. apply IH. by apply perform_keeps_window_ok.
Qed.

(** X19: whatever the user types, selects and presses after start-up, the
    list owns its tasks, the list box shows exactly the tasks of the list
    in order, every selected position is a line of the list box, and every
    task has a non-empty title, due date and priority. *)
Theorem session_keeps_window_consistent acts :
  let w := session acts in
  wf (todo_list w) /\
  length (items (task_listbox w)) = length (tasks (todo_list w)) /\
  (forall k, items (task_listbox w) !! k = Task_str <$> task_at (todo_list w) k) /\
  selection_valid w /\
  fields_nonempty (todo_list w).
Proof.
  destruct (continue_keeps_window_ok acts TodoApp_init window_ok_init)
    as (Hwf & [Hlen Hline] & Hsel & Hne).
  intros w. exact (conj Hwf (conj Hlen (conj Hline (conj Hsel Hne)))).
Qed.

Lemma perform_keeps_objects a w r x :
  heap (todo_list w) !! r = Some x ->
  exists x',
    heap (todo_list (perform a w)) !! r = Some x' /\
    title x' = title x /\ due_date x' = due_date x /\ priority x' = priority x /\
    (is_completed x = true -> is_completed x' = true).
Proof.
  intros Hx.
  assert (Hsame : forall w', todo_list w' = todo_list w ->
    exists x',
      heap (todo_list w') !! r = Some x' /\
      title x' = title x /\ due_date x' = due_date x /\
      priority x' = priority x /\
      (is_completed x = true -> is_completed x' = true)).
  { intros w' ->. exists x. by repeat split. }
  destruct a as [text|text|text|k| | |]; cbn [perform];
    [by apply Hsame..| | | |].
  - case_decide; by apply Hsame.
  - destruct (string_dec (title_entry w) "") as [Ht|Ht];
      [|destruct (string_dec (due_date_entry w) "") as [Hd|Hd];
        [|destruct (string_dec (priority_entry w) "") as [Hp|Hp]]].
    + rewrite add_handler_rejects_run by (by left). by apply Hsame.
    + rewrite add_handler_rejects_run by (right; by left). by apply Hsame.
    + rewrite add_handler_rejects_run by (right; by right). by apply Hsame.
    + rewrite (add_handler_accepts_run w Ht Hd Hp). cbn [gfinal todo_list heap].
      exists x. split; [by apply lookup_app_l_Some|]. by repeat split.
  - unfold TodoApp_mark_completed.
    destruct (curselection (task_listbox w)) as [|k rest] eqn:Hcur.
    + rewrite handler_nothing_selected by done. by apply Hsame.
    + destruct (index_cases (todo_list w) (Z.of_nat k))
        as [(k' & r0 & _ & Hk & Hr)|[_ Hnone]].
      * rewrite (handler_selected_returns (fun i => mark_completed (Z.of_nat i))
                   _ _ w k rest _ Hcur (mark_completed_at _ _ k' r0 Hk Hr)).
        cbn [gfinal todo_list heap].
        destruct (decide (r0 = r)) as [->|Hne].
        -- exists (set_is_completed true x).
           split; [by rewrite list_lookup_alter_eq, Hx|]. by repeat split.
        -- exists x. split; [by rewrite list_lookup_alter_ne|]. by repeat split.
      * rewrite (handler_selected_raises (fun i => mark_completed (Z.of_nat i))
                   _ _ w k rest Hcur (getitem_then_setattr_out _ _ _ Hnone)).
        by apply Hsame.
  - unfold TodoApp_remove_task.
    destruct (curselection (task_listbox w)) as [|k rest] eqn:Hcur.
    + rewrite handler_nothing_selected by done. by apply Hsame.
    + destruct (decide (k < length (tasks (todo_list w)))) as [Hk|Hk].
      * assert (Hrun := remove_task_at (todo_list w) (Z.of_nat k)
                          ltac:(unfold len; lia)).
        rewrite (handler_selected_returns (fun i => remove_task (Z.of_nat i))
                   _ _ w k rest _ Hcur Hrun).
        cbn [gfinal todo_list heap]. exists x. by repeat split.
      * assert (Hrun := remove_task_skip (todo_list w) (Z.of_nat k)
                          ltac:(unfold len; lia)).
        rewrite (handler_selected_returns (fun i => remove_task (Z.of_nat i))
                   _ _ w k rest _ Hcur Hrun).
        cbn [gfinal todo_list heap]. exists x. by repeat split.
Qed.

(** X20: the window never edits a task and never takes a completion back:
    whatever the user does, a task object that exists keeps the title, due
    date and priority it has, and once completed it stays completed (also
    after it was removed from the list). *)
Theorem window_never_edits_or_uncompletes acts : forall w r x,
  heap (todo_list w) !! r = Some x ->
  exists x',
    heap (todo_list (continue acts w)) !! r = Some x' /\
    title x' = title x /\ due_date x' = due_date x /\ priority x' = priority x /\
    (is_completed x = true -> is_completed x' = true).
Proof.
  unfold continue. induction acts as [|a acts IH]; intros w r x Hx; cbn [foldl].
  - exists x. by repeat split.
  - destruct (perform_keeps_objects a w r x Hx) as (x1 & Hx1 & Ht & Hd & Hp & Hc).
    destruct (IH _ r x1 Hx1) as (x' & Hx' & Ht' & Hd' & Hp' & Hc').
    exists x'. split; [exact Hx'|].
    rewrite Ht', Hd', Hp'. repeat split; auto.
Qed.

Lemma window_never_edits_or_uncompletes_witness :
  heap (todo_list window_two_tasks) !! 1 =
    Some (mkTask "B" "2024-01-02" "High" false) /\
  exists x',
    heap (todo_list (continue [PressCompleted; Select 0; PressRemove]
                              window_two_tasks)) !! 1 = Some x' /\
    title x' = "B".
Proof.
  split; [reflexivity|].
  destruct (window_never_edits_or_uncompletes
              [PressCompleted; Select 0; PressRemove] window_two_tasks 1
              (mkTask "B" "2024-01-02" "High" false) eq_refl)
    as (x' & Hx' & Ht & _).
  exists x'. split; [exact Hx'|exact Ht].
Defined.

(** X21: in a session, pressing a button while a line is selected always
    acts on a task of the list and shows no warning: the completion button
    marks the task at the selected position completed, the removal button
    makes the list one shorter. *)
Theorem session_buttons_act_on_selection acts k rest :
  curselection (task_listbox (session acts)) = k :: rest ->
  let w := session acts in
  (warnings (perform PressCompleted w) = warnings w /\
   is_completed <$> task_at (todo_list (perform PressCompleted w)) k = Some true) /\
  (warnings (perform PressRemove w) = warnings w /\
   len (todo_list (perform PressRemove w)) = (len (todo_list w) - 1)%Z).
Proof.
  intros Hcur w.
  destruct (continue_keeps_window_ok acts TodoApp_init window_ok_init)
    as (Hwf & [Hlen _] & Hsel & _). fold (session acts) in *. fold w in Hcur, Hwf, Hlen, Hsel.
  assert (Hk : k < length (tasks (todo_list w))).
  { unfold selection_valid in Hsel. rewrite Hcur in Hsel.
    apply Forall_cons in Hsel as [Hk _]. by rewrite <- Hlen. }
  split.
  - pose proof (py_index_of_nat _ k Hk) as Hpi.
    destruct (list_getitem_total (todo_list w) _ k Hpi) as (r & Hr & _).
    destruct (task_at_valid (todo_list w) k Hwf Hk) as [x Hx].
    cbn [perform]. unfold TodoApp_mark_completed.
    rewrite (handler_selected_returns (fun i => mark_completed (Z.of_nat i))
               _ _ w k rest _ Hcur (mark_completed_at _ _ k r Hpi Hr)).
    cbn [gfinal todo_list warnings]. split; [done|].
    rewrite task_at_alter_same by done. by rewrite Hx.
  - assert (Hrun := remove_task_at (todo_list w) (Z.of_nat k)
                      ltac:(unfold len; lia)).
    cbn [perform]. unfold TodoApp_remove_task.
    rewrite (handler_selected_returns (fun i => remove_task (Z.of_nat i))
               _ _ w k rest _ Hcur Hrun).
    cbn [gfinal todo_list warnings]. split; [done|].
    unfold len; cbn [tasks]. rewrite Nat2Z.id.
    rewrite length_delete; [lia|]. by apply lookup_lt_is_Some_2.
Qed.

Lemma session_buttons_act_on_selection_witness :
  let acts := [TypeTitle "A"; TypeDueDate "2024-01-01"; TypePriority "Low";
               PressAdd; Select 0] in
  curselection (task_listbox (session acts)) = [0] /\
  warnings (perform PressCompleted (session acts)) = warnings (session acts) /\
  is_completed <$> task_at (todo_list (perform PressCompleted (session acts))) 0
    = Some true.
Proof.
  intros acts. split; [reflexivity|].
  exact (proj1 (session_buttons_act_on_selection acts 0 [] eq_refl)).
Defined.
